(** * OMNI Operator: sandbox start-up script and front-end handlers

    A shallow embedding of
    - [backend/sandbox/docker/start_browser.sh] (health polling and pre-warming
      of the browser automation service),
    - the dashboard page's [handleSubmit],
    - the share layout's [generateMetadata],
    - [CustomModelDialog]'s [handleSave],
    together with a model of the orchestration core (sandbox pool, run
    executor, queue consumer) that the specification describes.

    Part I holds the definitions, Part II the properties. *)

From Stdlib Require Import ZArith List Bool Ascii String Lia DecimalString.
From stdpp Require Import gmap strings list.


(* ===================================================================== *)
(** * Part I: the embedding                                              *)
(* ===================================================================== *)

(** ** start_browser.sh *)

Module StartBrowser.

(** What one invocation of curl meets on the wire: either the server sent an
    HTTP response with some status code, or the transfer failed before a
    response arrived (connection refused is 7, timeout is 28, ...). *)
Inductive CurlOutcome :=
| HttpResponse (status : Z)
| TransferError (code : positive).

(** Exit status of curl.  Only with [-f]/[--fail] does an HTTP status of 400
    or more turn into exit status 22; the script passes [-s] and [-X POST]
    only, so it always runs curl with [fail_flag = false]. *)
Definition curl_exit (fail_flag : bool) (o : CurlOutcome) : Z :=
  match o with
  | HttpResponse st => if fail_flag && (400 <=? st)%Z then 22%Z else 0%Z
  | TransferError c => Z.pos c
  end.

Definition is_2xx (o : CurlOutcome) : bool :=
  match o with
  | HttpResponse st => (200 <=? st)%Z && (st <=? 299)%Z
  | TransferError _ => false
  end.

(** Everything outside the script: what the liveness endpoint answers at loop
    index [i], what the navigation endpoint answers, and the background
    process (its pid and the status it finally exits with). *)
Record World := {
  api_get : nat -> CurlOutcome;
  navigate_post : CurlOutcome;
  browser_pid : nat;
  browser_status : Z
}.

(** Observable actions of the script, in order. *)
Inductive Event :=
| Echo (line : string)
| Spawn (cmd : string) (pid : nat)
| CurlGet (url : string) (o : CurlOutcome)
| CurlPost (url : string) (header : string) (body : string) (o : CurlOutcome)
| Sleep (seconds : nat)
| Wait (pid : nat).

(** A command returns a value and appends to the trace. *)
Definition Sh (A : Type) : Type := (A * list Event)%type.

Definition ret {A} (a : A) : Sh A := (a, []).

Definition bind {A B} (c : Sh A) (k : A -> Sh B) : Sh B :=
  let '(a, t1) := c in
  let '(b, t2) := k a in
  (b, t1 ++ t2).

Notation "'let*' x := c 'in' k" := (bind c (fun x => k))
  (at level 10, x name, c at level 100, k at level 200).
Notation "c >> k" := (bind c (fun _ => k))
  (at level 100, k at level 200, right associativity).

Definition emit (e : Event) : Sh unit := (tt, [e]).

Definition value {A} (c : Sh A) : A := fst c.
Definition trace {A} (c : Sh A) : list Event := snd c.

(** How a loop body ends: falls through to the next iteration, or [break]. *)
Inductive Ctl := Next | Break.

(** [for i in items; do body; done] *)
Fixpoint for_in (items : list nat) (body : nat -> Sh Ctl) : Sh Ctl :=
  match items with
  | [] => ret Next
  | i :: rest =>
      let* c := body i in
      match c with
      | Break => ret Break
      | Next => for_in rest body
      end
  end.

(** [cmd || true]: the status of [cmd] when it is 0, else that of [true]. *)
Definition or_true (c : Sh Z) : Sh Z :=
  let* rc := c in if (rc =? 0)%Z then ret rc else ret 0%Z.

Definition echo (line : string) : Sh unit := emit (Echo line).
Definition sleep (n : nat) : Sh unit := emit (Sleep n).

Definition dquote : string := String (Ascii.ascii_of_nat 34) EmptyString.
Definition quoted (s : string) : string := dquote +:+ s +:+ dquote.

Definition api_url : string := "http://localhost:8003/api".
Definition navigate_url : string :=
  "http://localhost:8003/api/automation/navigate_to".
Definition json_header : string := "Content-Type: application/json".
(** [{"url": "about:blank"}] *)
Definition blank_body : string :=
  "{" +:+ quoted "url" +:+ ": " +:+ quoted "about:blank" +:+ "}".

(** line 13: [curl -s http://localhost:8003/api > /dev/null] *)
Definition curl_api (w : World) (i : nat) : Sh Z :=
  emit (CurlGet api_url (api_get w i)) >>
  ret (curl_exit false (api_get w i)).

(** lines 18-20, before [|| true] *)
Definition curl_navigate (w : World) : Sh Z :=
  emit (CurlPost navigate_url json_header blank_body (navigate_post w)) >>
  ret (curl_exit false (navigate_post w)).

(** lines 16-20 *)
Definition pre_warm (w : World) : Sh Z :=
  echo "Pre-warming browser..." >>
  or_true (curl_navigate w).

Definition decimal (n : nat) : string := NilEmpty.string_of_uint (Nat.to_uint n).

(** lines 13-26: the body of the loop at index [i] *)
Definition attempt (w : World) (i : nat) : Sh Ctl :=
  let* rc := curl_api w i in
  if (rc =? 0)%Z then
    echo "Browser API is ready!" >>
    pre_warm w >>
    echo "Browser pre-warming complete!" >>
    ret Break
  else
    echo ("Waiting... (" +:+ decimal i +:+ "/30)") >>
    sleep 1 >>
    ret Next.

(** lines 12-27: [for i in {1..30}] *)
Definition health_poll (w : World) : Sh Ctl :=
  for_in (seq 1 30) (attempt w).

(** The whole script; its exit status is that of [wait $BROWSER_PID]. *)
Definition start_browser (w : World) : Sh Z :=
  echo "Starting Browser API service..." >>
  emit (Spawn "python /app/browser_api.py" (browser_pid w)) >>
  echo "Waiting for Browser API to start..." >>
  health_poll w >>
  emit (Wait (browser_pid w)) >>
  ret (browser_status w).

(** The lifecycle of the specification, read off what the script has
    announced so far.  The script has no [exit], no [kill] and no error
    message, hence nothing that announces a failure. *)
Inductive FailureKind := LaunchError | HealthCheckTimeout.

Inductive Lifecycle :=
| Starting
| HealthPolling
| PreWarming
| Ready
| Failed (why : FailureKind).

Definition is_echo (line : string) (e : Event) : bool :=
  match e with
  | Echo l => String.eqb l line
  | _ => false
  end.

Definition announced (line : string) (t : list Event) : bool :=
  existsb (is_echo line) t.

Definition lifecycle (t : list Event) : Lifecycle :=
  if announced "Browser pre-warming complete!" t then Ready
  else if announced "Pre-warming browser..." t then PreWarming
  else if announced "Waiting for Browser API to start..." t then HealthPolling
  else Starting.

Definition is_get (e : Event) : bool :=
  match e with CurlGet _ _ => true | _ => false end.
Definition is_post (e : Event) : bool :=
  match e with CurlPost _ _ _ _ => true | _ => false end.

Definition count_if (p : Event -> bool) (t : list Event) : nat :=
  length (List.filter p t).

(** Whether attempt [i] confirms health: the loop body takes the [then]
    branch and ends in [break]. *)
Definition confirms (w : World) (i : nat) : bool :=
  match value (attempt w i) with Break => true | Next => false end.

(** What a failed and a successful attempt append to the trace. *)
Definition retry_events (w : World) (i : nat) : list Event :=
  [CurlGet api_url (api_get w i);
   Echo ("Waiting... (" +:+ decimal i +:+ "/30)");
   Sleep 1].

Definition confirm_events (w : World) (i : nat) : list Event :=
  [CurlGet api_url (api_get w i);
   Echo "Browser API is ready!";
   Echo "Pre-warming browser...";
   CurlPost navigate_url json_header blank_body (navigate_post w);
   Echo "Browser pre-warming complete!"].

Definition prologue (w : World) : list Event :=
  [Echo "Starting Browser API service...";
   Spawn "python /app/browser_api.py" (browser_pid w);
   Echo "Waiting for Browser API to start..."].

Definition get_ok (w : World) (i : nat) : bool :=
  (curl_exit false (api_get w i) =? 0)%Z.

(** The last clause of the bounded-retry claim as the specification words it:
    when all thirty attempts fail, the sandbox is [Failed] with
    [HealthCheckTimeout]. *)
Definition timeout_reported (w : World) : Prop :=
  (forall i, (1 <= i <= 30)%nat -> curl_exit false (api_get w i) <> 0%Z) ->
  lifecycle (trace (start_browser w)) = Failed HealthCheckTimeout.

(** Health confirmation as the specification words it: attempt [i] confirms
    exactly when the endpoint answers 2xx. *)
Definition confirmed_iff_2xx (w : World) (i : nat) : Prop :=
  confirms w i = true <-> is_2xx (api_get w i) = true.

(** Worlds used as concrete inputs. *)
Definition world_of (get : nat -> CurlOutcome) (post : CurlOutcome) : World :=
  {| api_get := get; navigate_post := post; browser_pid := 4242; browser_status := 0 |}.

(** Nothing ever listens on port 8003. *)
Definition world_dead : World :=
  world_of (fun _ => TransferError 7) (TransferError 7).
(** The service answers at once, and with 200 everywhere. *)
Definition world_healthy : World :=
  world_of (fun _ => HttpResponse 200) (HttpResponse 200).
(** The service accepts connections but answers 500 Internal Server Error. *)
Definition world_500 : World :=
  world_of (fun _ => HttpResponse 500) (HttpResponse 500).
(** Liveness answers from the third attempt on; the navigation times out. *)
Definition world_slow_prewarm_fails : World :=
  world_of (fun i => if (i <? 3)%nat then TransferError 7 else HttpResponse 200)
           (TransferError 28).

(** The two shapes a run of the loop can take. *)
Inductive PollShape (w : World) : Prop :=
| NeverConfirmed :
    (forall i, (1 <= i <= 30)%nat -> get_ok w i = false) ->
    health_poll w = (Next, flat_map (retry_events w) (seq 1 30)) ->
    PollShape w
| ConfirmedAt (k : nat) :
    (1 <= k <= 30)%nat ->
    (forall j, (1 <= j < k)%nat -> get_ok w j = false) ->
    get_ok w k = true ->
    health_poll w =
      (Break, flat_map (retry_events w) (seq 1 (k - 1)) ++ confirm_events w k) ->
    PollShape w.

(** Further observations on a trace. *)
Definition is_sleep (e : Event) : bool :=
  match e with Sleep _ => true | _ => false end.
Definition is_spawn (e : Event) : bool :=
  match e with Spawn _ _ => true | _ => false end.
Definition is_wait (e : Event) : bool :=
  match e with Wait _ => true | _ => false end.

(** Seconds the script spends in [sleep]. *)
Definition total_sleep (t : list Event) : nat :=
  list_sum (map (fun e => match e with Sleep n => n | _ => 0%nat end) t).

(** The same event with the answer to a POST blanked out. *)
Definition forget_post_outcome (e : Event) : Event :=
  match e with
  | CurlPost url header body _ => CurlPost url header body (HttpResponse 0)
  | _ => e
  end.

(** Some attempt among the thirty meets a curl that exits with 0. *)
Definition some_attempt_ok (w : World) : Prop :=
  exists i, (1 <= i <= 30)%nat /\ curl_exit false (api_get w i) = 0%Z.

(** Liveness answers only at the last attempt. *)
Definition world_last_chance : World :=
  world_of (fun i => if (i <? 30)%nat then TransferError 7 else HttpResponse 204)
           (HttpResponse 200).
(** As [world_slow_prewarm_fails] up to the third attempt, dead afterwards,
    and with a navigation that succeeds. *)
Definition world_flaky : World :=
  world_of (fun i => if (i =? 3)%nat then HttpResponse 200 else TransferError 7)
           (HttpResponse 200).

End StartBrowser.

(** ** JavaScript values shared by the front-end handlers *)

Module JS.

(** A JavaScript string is a sequence of UTF-16 code units. *)
Definition jsstring : Type := list N.

(** An ASCII literal as a JavaScript string. *)
Definition str (s : string) : jsstring :=
  map N_of_ascii (list_ascii_of_string s).

(** ECMAScript WhiteSpace and LineTerminator code points (all of them lie in
    the basic plane, so each is one code unit). *)
Definition is_white_space (c : N) : bool :=
  (c =? 0x9)%N || (c =? 0xB)%N || (c =? 0xC)%N || (c =? 0x20)%N ||
  (c =? 0xA0)%N || (c =? 0x1680)%N ||
  ((0x2000 <=? c)%N && (c <=? 0x200A)%N) ||
  (c =? 0x202F)%N || (c =? 0x205F)%N || (c =? 0x3000)%N || (c =? 0xFEFF)%N.

Definition is_line_terminator (c : N) : bool :=
  (c =? 0xA)%N || (c =? 0xD)%N || (c =? 0x2028)%N || (c =? 0x2029)%N.

Definition strippable (c : N) : bool :=
  is_white_space c || is_line_terminator c.

Fixpoint trimStart (s : jsstring) : jsstring :=
  match s with
  | c :: rest => if strippable c then trimStart rest else s
  | [] => []
  end.

Definition trimEnd (s : jsstring) : jsstring := rev (trimStart (rev s)).

(** [String.prototype.trim] *)
Definition trim (s : jsstring) : jsstring := trimEnd (trimStart s).

(** ToBoolean on a string: only the empty string is falsy. *)
Definition truthy (s : jsstring) : bool :=
  match s with [] => false | _ :: _ => true end.

(** A value that is a string, [undefined] or [null]. *)
Inductive strval :=
| Undefined
| Null
| Str (s : jsstring).

Definition truthy_val (v : strval) : bool :=
  match v with Str s => truthy s | _ => false end.

(** ToString, as a template literal applies it. *)
Definition to_string (v : strval) : jsstring :=
  match v with
  | Undefined => str "undefined"
  | Null => str "null"
  | Str s => s
  end.

(** [v || d] with a string literal [d] *)
Definition or_literal (v : strval) (d : jsstring) : jsstring :=
  match v with
  | Str s => if truthy s then s else d
  | _ => d
  end.

(** [String(b)] *)
Definition string_of_bool (b : bool) : jsstring :=
  if b then str "true" else str "false".

End JS.

(** ** The dashboard page: handleSubmit

    The page follows the script in the file of start_browser.sh (lines 30 to
    249); line numbers below are those of that file. *)

Module Dashboard.
Import JS.

Record File := { file_name : jsstring; file_bytes : list N }.

(** The optional second argument of [handleSubmit]; [None] in a field is an
    absent ([undefined]) property. *)
Record SubmitOptions := {
  model_name : option jsstring;
  enable_thinking : option bool;
  reasoning_effort : option jsstring;
  stream : option bool;
  enable_context_manager : option bool
}.

Inductive FormValue :=
| Text (s : jsstring)
| Blob (f : File) (filename : jsstring).

Definition FormData : Type := list (jsstring * FormValue).

Record Subscription := { price_id : jsstring; plan_name : jsstring }.

Record BillingDetail := {
  detail_message : strval;
  detail_currentUsage : option Z;
  detail_limit : option Z;
  detail_subscription : option Subscription
}.

Record BillingInfo := {
  message : jsstring;
  currentUsage : option Z;
  limit : option Z;
  subscription : Subscription
}.

Inductive Thrown :=
| BillingError (detail : BillingDetail)
| OtherError.

(** How [initiateAgentMutation.mutateAsync] settles. *)
Inductive Settled :=
| Resolved (thread_id : strval)
| Rejected (err : Thrown).

Inductive Effect :=
| SetIsSubmitting (b : bool)
| RemoveItem (key : jsstring)
| ConsoleLog (label : jsstring)
| ConsoleError (label : jsstring)
| MutateAsync (fd : FormData)
| RouterPush (href : jsstring)
| ClearPendingFiles
| HandleBillingError (info : BillingInfo).

(** What the closure of one render sees: the [isSubmitting] state and
    [chatInputRef.current] ([None] when the ref is null), of which only the
    pending files matter here. *)
Record View := {
  isSubmitting : bool;
  chatInput : option (list File)
}.

Definition PENDING_PROMPT_KEY : jsstring := str "pendingAgentPrompt".

(** [chatInputRef.current?.getPendingFiles().length] is falsy (0 or
    undefined) *)
Definition no_pending_files (v : View) : bool :=
  match chatInput v with
  | None => true
  | Some files => (length files =? 0)%nat
  end.

(** lines 88-91: the condition of the early return *)
Definition rejects (v : View) (msg : jsstring) : bool :=
  (negb (truthy (trim msg)) && no_pending_files v) || isSubmitting v.

Definition opt_field {A} (o : option SubmitOptions) (f : SubmitOptions -> option A)
  : option A :=
  match o with Some r => f r | None => None end.

(** lines 100-111 *)
Definition build_form (msg : jsstring) (files : list File)
    (options : option SubmitOptions) : FormData :=
  [(str "prompt", Text msg)]
  ++ map (fun f => (str "files", Blob f (file_name f))) files
  ++ match opt_field options model_name with
     | Some m => if truthy m then [(str "model_name", Text m)] else []
     | None => []
     end
  ++ [(str "enable_thinking",
       Text (string_of_bool (default false (opt_field options enable_thinking))));
      (str "reasoning_effort",
       Text (default (str "low") (opt_field options reasoning_effort)));
      (str "stream",
       Text (string_of_bool (default true (opt_field options stream))));
      (str "enable_context_manager",
       Text (string_of_bool
               (default false (opt_field options enable_context_manager))))].

Section Handler.

(** [config.SUBSCRIPTION_TIERS.FREE.priceId], declared outside this file. *)
Variable FREE_priceId : jsstring.
(** The mutation, as a function of the form it is given. *)
Variable mutateAsync : FormData -> Settled.

(** lines 124-139: the [catch] block *)
Definition on_error (err : Thrown) : list Effect :=
  ConsoleError (str "Error during submission process:") ::
  match err with
  | BillingError d =>
      [ConsoleLog (str "Handling BillingError:");
       HandleBillingError
         {| message :=
              or_literal (detail_message d)
                (str "Monthly usage limit reached. Please upgrade your plan.");
            currentUsage := detail_currentUsage d;
            limit := detail_limit d;
            subscription :=
              default {| price_id := FREE_priceId; plan_name := str "Free" |}
                      (detail_subscription d) |}]
  | OtherError => []
  end.

(** lines 96-123: the [try] block followed, when it throws, by the [catch] *)
Definition submit (v : View) (msg : jsstring) (options : option SubmitOptions)
  : list Effect :=
  let files := default [] (chatInput v) in
  let formData := build_form msg files options in
  [RemoveItem PENDING_PROMPT_KEY;
   ConsoleLog (str "FormData content:");
   MutateAsync formData]
  ++ match mutateAsync formData with
     | Resolved tid =>
         ConsoleLog (str "Agent initiated:") ::
         if truthy_val tid then
           RouterPush (str "/agents/" ++ to_string tid) ::
           match chatInput v with
           | Some _ => [ClearPendingFiles]
           | None => []
           end
         else on_error OtherError
     | Rejected err => on_error err
     end.

(** lines 78-143 *)
Definition handleSubmit (v : View) (msg : jsstring)
    (options : option SubmitOptions) : list Effect :=
  if rejects v msg then []
  else [SetIsSubmitting true] ++ submit v msg options ++ [SetIsSubmitting false].

End Handler.

Definition initiates_run (e : Effect) : bool :=
  match e with MutateAsync _ => true | _ => false end.
Definition touches_submitting (e : Effect) : bool :=
  match e with SetIsSubmitting _ => true | _ => false end.

(** Views and a mutation used as concrete inputs. *)
Definition idle_view : View := {| isSubmitting := false; chatInput := Some [] |}.
Definition busy_view : View := {| isSubmitting := true; chatInput := Some [] |}.
Definition accepts_all (fd : FormData) : Settled := Resolved (Str (str "t1")).

Definition count_eff (p : Effect -> bool) (l : list Effect) : nat :=
  length (List.filter p l).

(** [FormData.get] and [FormData.getAll], to read a form back. *)
Definition has_key (key : jsstring) (kv : jsstring * FormValue) : bool :=
  bool_decide (fst kv = key).
Definition form_get (key : jsstring) (fd : FormData) : option FormValue :=
  snd <$> List.find (has_key key) fd.
Definition form_getAll (key : jsstring) (fd : FormData) : list FormValue :=
  map snd (List.filter (has_key key) fd).

(** The effects of the page around the handler: reads of local storage and
    the two other pieces of state. *)
Inductive PageEffect :=
| Handler (e : Effect)
| GetItem (key : jsstring)
| SetInputValue (s : jsstring)
| SetAutoSubmit (b : bool).

(** lines 147-154: the timer of the first effect; [stored] is what
    [localStorage.getItem] returns, a string or [null] *)
Definition load_pending_prompt (stored : strval) : list PageEffect :=
  GetItem PENDING_PROMPT_KEY ::
  if truthy_val stored
  then [SetInputValue (to_string stored); SetAutoSubmit true]
  else [].

(** line 160: the condition under which the second effect sets its timer *)
Definition auto_submit_due (autoSubmit : bool) (inputValue : jsstring)
    (submitting : bool) : bool :=
  autoSubmit && truthy inputValue && negb submitting.

(** An async function called without [await] runs up to its first [await],
    here the call of [mutateAsync]; the rest runs after the caller. *)
Fixpoint until_await (l : list Effect) : list Effect * list Effect :=
  match l with
  | [] => ([], [])
  | e :: rest =>
      if initiates_run e then ([e], rest)
      else let '(before, after) := until_await rest in (e :: before, after)
  end.

(** lines 161-164: the timer of the second effect,
    [handleSubmit(inputValue); setAutoSubmit(false)] *)
Definition auto_submit_fire (FREE_priceId : jsstring)
    (mutateAsync : FormData -> Settled) (v : View) (inputValue : jsstring)
  : list PageEffect :=
  let '(before, after) :=
    until_await (handleSubmit FREE_priceId mutateAsync v inputValue None) in
  map Handler before ++ [SetAutoSubmit false] ++ map Handler after.

Definition free_plan (FREE_priceId : jsstring) : Subscription :=
  {| price_id := FREE_priceId; plan_name := str "Free" |}.

Definition is_push (e : Effect) : bool :=
  match e with RouterPush _ => true | _ => false end.

(** What follows the call of the mutation, up to the [finally]. *)
Definition after_mutation (priceId : jsstring) (v : View) (r : Settled)
  : list Effect :=
  match r with
  | Resolved tid =>
      ConsoleLog (str "Agent initiated:") ::
      if truthy_val tid then
        RouterPush (str "/agents/" ++ to_string tid) ::
        match chatInput v with Some _ => [ClearPendingFiles] | None => [] end
      else on_error priceId OtherError
  | Rejected err => on_error priceId err
  end.

(** Mutations used as concrete inputs. *)
Definition over_limit (fd : FormData) : Settled :=
  Rejected (BillingError {| detail_message := Undefined;
                            detail_currentUsage := Some 60%Z;
                            detail_limit := Some 60%Z;
                            detail_subscription := None |}).
Definition two_files : View :=
  {| isSubmitting := false;
     chatInput := Some [ {| file_name := str "a.txt"; file_bytes := [] |};
                         {| file_name := str "b.png"; file_bytes := [1%N] |} ] |}.

End Dashboard.

(** ** The share layout: generateMetadata (unnamed/part_000) *)

Module ShareLayout.
Import JS.

(** site.ts *)
Definition siteConfig_name : jsstring := str "OMNI Operator".

Record Env := {
  NEXT_PUBLIC_URL : strval;
  NODE_ENV : strval;
  NEXT_PUBLIC_ENV_MODE : strval
}.

Record Thread := { project_id : strval }.
Record Project := { name : strval; description : strval }.

(** How a fetch settles: it throws, or yields a value that may be
    [null]/[undefined] ([None]). *)
Inductive Fetched (A : Type) :=
| Throws
| Yields (v : option A).
Arguments Throws {A}.
Arguments Yields {A} v.

Record OpenGraph := {
  og_type : jsstring;
  og_locale : jsstring;
  og_title : jsstring;
  og_description : jsstring;
  og_siteName : jsstring;
  og_images : option (list jsstring)
}.

Record Twitter := {
  tw_title : jsstring;
  tw_description : jsstring;
  tw_images : jsstring;
  tw_card : jsstring
}.

Record Metadata := {
  title : jsstring;
  md_description : jsstring;
  canonical : jsstring;
  openGraph : OpenGraph;
  twitter : option Twitter
}.

(** A computation that returns or throws. *)
Inductive Exc (A : Type) :=
| Return (a : A)
| Throw.
Arguments Return {A} a.
Arguments Throw {A}.

Definition await {A} (f : Fetched A) : Exc (option A) :=
  match f with
  | Throws => Throw
  | Yields v => Return v
  end.

(** Reading a property of [null]/[undefined] throws a TypeError. *)
Definition get_prop {A B} (o : option A) (f : A -> B) : Exc B :=
  match o with
  | Some a => Return (f a)
  | None => Throw
  end.

Definition bindE {A B} (c : Exc A) (k : A -> Exc B) : Exc B :=
  match c with
  | Return a => k a
  | Throw => Throw
  end.

Definition try_catch {A} (body : Exc A) (handler : Exc A) : Exc A :=
  match body with
  | Return a => Return a
  | Throw => handler
  end.

Definition streq (v : strval) (lit : string) : bool :=
  match v with
  | Str s => if decide (s = str lit) then true else false
  | _ => false
  end.

Definition default_title : jsstring := str "Shared Conversation | OMNI Operator".
Definition default_description : jsstring :=
  str "Replay this Agent conversation on OMNI Operator".

(** [`${process.env.NEXT_PUBLIC_URL}/share/${threadId}`] *)
Definition share_url (env : Env) (threadId : jsstring) : jsstring :=
  to_string (NEXT_PUBLIC_URL env) ++ str "/share/" ++ threadId.

(** lines 7-20 *)
Definition fallbackMetaData (env : Env) (threadId : jsstring) : Metadata :=
  {| title := default_title;
     md_description := default_description;
     canonical := share_url env threadId;
     openGraph :=
       {| og_type := str "website";
          og_locale := str "en_US";
          og_title := default_title;
          og_description := default_description;
          og_siteName := siteConfig_name;
          og_images := None |};
     twitter := None |}.

(** lines 30-63 *)
Definition fullMetaData (env : Env) (threadId : jsstring) (p : Project) : Metadata :=
  let isDevelopment :=
    streq (NODE_ENV env) "development" ||
    streq (NEXT_PUBLIC_ENV_MODE env) "LOCAL" ||
    streq (NEXT_PUBLIC_ENV_MODE env) "local" in
  let title := or_literal (name p) default_title in
  let description := or_literal (description p) default_description in
  let ogImage :=
    if isDevelopment
    then to_string (NEXT_PUBLIC_URL env) ++ str "/share-page/og-fallback.png"
    else to_string (NEXT_PUBLIC_URL env)
           ++ str "/api/share-page/og-image?title=" ++ to_string (name p) in
  {| title := title;
     md_description := description;
     canonical := share_url env threadId;
     openGraph :=
       {| og_type := str "website";
          og_locale := str "en_US";
          og_title := title;
          og_description := description;
          og_siteName := siteConfig_name;
          og_images := Some [ogImage] |};
     twitter :=
       Some {| tw_title := title;
               tw_description := description;
               tw_images := ogImage;
               tw_card := str "summary_large_image" |} |}.

Section Fetchers.

Variable getThread : jsstring -> Fetched Thread.
Variable getProject : strval -> Fetched Project.

(** lines 22-63: the body of the [try] *)
Definition try_body (env : Env) (threadId : jsstring) : Exc Metadata :=
  bindE (await (getThread threadId)) (fun threadData =>
  bindE (get_prop threadData project_id) (fun pid =>
  bindE (await (getProject pid)) (fun projectData =>
  match threadData, projectData with
  | Some _, Some p => Return (fullMetaData env threadId p)
  | _, _ => Return (fallbackMetaData env threadId)
  end))).

(** lines 5-67 *)
Definition generateMetadata (env : Env) (threadId : jsstring) : Exc Metadata :=
  try_catch (try_body env threadId) (Return (fallbackMetaData env threadId)).

(** The fetches of thread and project data throw or yield missing data. *)
Definition fetch_fails (threadId : jsstring) : Prop :=
  match getThread threadId with
  | Throws => True
  | Yields None => True
  | Yields (Some t) =>
      match getProject (project_id t) with
      | Throws => True
      | Yields None => True
      | Yields (Some _) => False
      end
  end.

End Fetchers.

(** An environment and fetchers used as concrete inputs. *)
Definition env_prod : Env :=
  {| NEXT_PUBLIC_URL := Str (str "https://suna.so");
     NODE_ENV := Str (str "production");
     NEXT_PUBLIC_ENV_MODE := Undefined |}.

Definition thread_found (tid : jsstring) : Fetched Thread :=
  Yields (Some {| project_id := Str (str "p1") |}).
Definition project_found (pid : strval) : Fetched Project :=
  Yields (Some {| name := Str (str "Demo"); description := Null |}).
Definition project_throws (pid : strval) : Fetched Project := Throws.

(** lines 30-33 *)
Definition isDevelopment (env : Env) : bool :=
  streq (NODE_ENV env) "development" ||
  streq (NEXT_PUBLIC_ENV_MODE env) "LOCAL" ||
  streq (NEXT_PUBLIC_ENV_MODE env) "local".

(** The thread cannot be had: the fetch throws or yields nothing. *)
Definition thread_fails (getThread : jsstring -> Fetched Thread)
    (threadId : jsstring) : Prop :=
  getThread threadId = Throws \/ getThread threadId = Yields None.

(** Further inputs. *)
Definition env_local : Env :=
  {| NEXT_PUBLIC_URL := Str (str "http://localhost:3000");
     NODE_ENV := Str (str "production");
     NEXT_PUBLIC_ENV_MODE := Str (str "local") |}.
Definition project_unnamed (pid : strval) : Fetched Project :=
  Yields (Some {| name := Undefined; description := Str [] |}).

End ShareLayout.

(** ** The custom model dialog: handleSave *)

Module CustomModelDialog.
Import JS.

Record CustomModelFormData := { id : jsstring; label : jsstring }.

Inductive Effect :=
| StopPropagation
| OnSave (modelData : CustomModelFormData)
| OnClose.

(** lines 44-49 *)
Definition handleSave (formData : CustomModelFormData) : list Effect :=
  StopPropagation ::
  if truthy (trim (id formData)) then [OnSave formData] else [].

(** lines 56-62, with the id of the input that changed *)
Definition handleChange (target_id : jsstring) (value : jsstring)
    (prev : CustomModelFormData) : CustomModelFormData :=
  if decide (target_id = str "modelId")
  then {| id := value; label := label prev |}
  else {| id := id prev; label := value |}.

(** line 116: [disabled={!formData.id.trim()}] *)
Definition save_disabled (formData : CustomModelFormData) : bool :=
  negb (truthy (trim (id formData))).

(** A click on the Save button: a disabled button runs no handler. *)
Definition click_save (formData : CustomModelFormData) : list Effect :=
  if save_disabled formData then [] else handleSave formData.

(** lines 51-53 *)
Definition handleClose : list Effect := [OnClose].

(** What can happen to the open dialog: typing into an input (line 101),
    a click on the input (line 103), on Save (lines 114-117) or on Cancel
    (lines 108-111), Escape or a pointer press outside (lines 75-76), the
    dialog asking to open or close (lines 67-71), and new [initialData] or
    [isOpen] from the parent (lines 40-42). *)
Inductive UiEvent :=
| Typed (target_id : jsstring) (value : jsstring)
| ClickInput
| ClickSave
| ClickCancel
| EscapeKey
| PointerDownOutside
| OpenChange (open : bool)
| PropsChanged (initialData : CustomModelFormData).

Definition ui_step (formData : CustomModelFormData) (ev : UiEvent)
  : CustomModelFormData * list Effect :=
  match ev with
  | Typed target_id value => (handleChange target_id value formData, [])
  | ClickInput => (formData, [StopPropagation])
  | ClickSave => (formData, click_save formData)
  | ClickCancel => (formData, StopPropagation :: handleClose)
  | EscapeKey => (formData, handleClose)
  | PointerDownOutside => (formData, handleClose)
  | OpenChange open => (formData, if open then [] else handleClose)
  | PropsChanged initialData => (initialData, [])
  end.

(** The form data after a sequence of events, and the effects it caused. *)
Fixpoint ui_run (formData : CustomModelFormData) (evs : list UiEvent)
  : CustomModelFormData * list Effect :=
  match evs with
  | [] => (formData, [])
  | ev :: rest =>
      let '(fd1, out1) := ui_step formData ev in
      let '(fd2, out2) := ui_run fd1 rest in
      (fd2, out1 ++ out2)
  end.

Definition is_save (e : Effect) : bool :=
  match e with OnSave _ => true | _ => false end.
Definition is_click_save (ev : UiEvent) : bool :=
  match ev with ClickSave => true | _ => false end.

End CustomModelDialog.

(** ** The orchestration core of the specification

    The deployment descriptor starts the worker
    ([python -m dramatiq run_agent_background]); the worker's pool, executor
    and consumer are described in sections 2 to 5 of the specification, which
    the three modules below follow.  Section 5 serialises every pool transition
    through one critical section, so a run of the system is a sequence of
    calls, each applied atomically. *)

Module SandboxPool.

(** Modelled from the spec: the lifecycle states of a SandboxProcess
    (section 4.1); the worker's sandbox supervisor is missing. *)
Inductive SandboxState :=
| Starting | HealthPolling | PreWarming | Ready | InUse
| Draining | Terminated | Failed.

#[global] Instance SandboxState_eq_dec : EqDecision SandboxState.
Proof. solve_decision. Defined.

Inductive PoolError := PoolExhausted.

(** Modelled from the spec: the Pool of section 3 (sandbox identifier to
    SandboxProcess state, a FIFO of callers waiting for capacity, the
    configured maximum) together with the sandbox each RunExecutor has
    borrowed (the nullable bound sandbox reference of RunExecution).  The
    worker's pool implementation is what is missing. *)
Record System := mkSystem {
  sandboxes : gmap nat SandboxState;
  max_size : nat;
  next_id : nat;
  waiting : list nat;
  bound : gmap nat nat
}.

Definition init (max : nat) : System := mkSystem ∅ max 0 [] ∅.

(** Some sandbox that is Ready, if there is one. *)
Definition find_ready (m : gmap nat SandboxState) : option nat :=
  fst <$> head (map_to_list (filter (fun kv => kv.2 = Ready) m)).

(** Executor [e] becomes the borrower of sandbox [id]. *)
Definition hand_out (s : System) (e id : nat) : System :=
  mkSystem (<[id := InUse]> (sandboxes s)) (max_size s) (next_id s)
           (waiting s) (<[e := id]> (bound s)).

Inductive AcquireResult :=
| Granted (id : nat)
| Suspended
| Refused (err : PoolError).

(** Modelled from the spec: acquireSandbox of section 4.2, up to the point
    where the caller is served, refused or suspended.  [becomes_ready] tells
    whether a sandbox created for this call reaches Ready within the
    timeout. *)
Definition acquireSandbox (s : System) (e : nat) (becomes_ready : bool)
  : AcquireResult * System :=
  match find_ready (sandboxes s) with
  | Some id => (Granted id, hand_out s e id)
  | None =>
      if (size (sandboxes s) <? max_size s)%nat then
        let id := next_id s in
        let s' := mkSystem (sandboxes s) (max_size s) (S id) (waiting s) (bound s) in
        if becomes_ready
        then (Granted id, hand_out s' e id)
        else (Refused PoolExhausted, s')
      else
        (Suspended,
         mkSystem (sandboxes s) (max_size s) (next_id s) (waiting s ++ [e]) (bound s))
  end.

(** Modelled from the spec: the timeout of a suspended acquireSandbox
    (section 4.2: on timeout, fails with PoolExhausted). *)
Definition acquire_timeout (s : System) (e : nat) : option AcquireResult * System :=
  if decide (e ∈ waiting s) then
    (Some (Refused PoolExhausted),
     mkSystem (sandboxes s) (max_size s) (next_id s)
              (filter (fun x => x ≠ e) (waiting s)) (bound s))
  else (None, s).

(** Modelled from the spec: a caller blocked in acquireSandbox is woken by a
    release (section 4.2); the first suspended caller takes a sandbox that has
    become Ready. *)
Definition serve (s : System) : System :=
  match waiting s, find_ready (sandboxes s) with
  | e :: rest, Some id =>
      hand_out (mkSystem (sandboxes s) (max_size s) (next_id s) rest (bound s)) e id
  | _, _ => s
  end.

(** Modelled from the spec: releaseSandbox of section 4.2.  A healthy
    instance returns to Ready; an unhealthy one is drained, terminated and
    removed. *)
Definition releaseSandbox (s : System) (id : nat) (healthy : bool) : System :=
  mkSystem
    (if healthy then alter (fun _ => Ready) id (sandboxes s)
     else delete id (sandboxes s))
    (max_size s) (next_id s) (waiting s) (bound s).

Definition unbind (s : System) (e : nat) : System :=
  mkSystem (sandboxes s) (max_size s) (next_id s) (waiting s) (delete e (bound s)).

(** Modelled from the spec: the calls that reach the pool.  A RunExecutor
    acquires once per run and releases the sandbox it is bound to, once
    (section 4.4); three consecutive probe failures remove a sandbox and
    force the release of its borrower (section 4.1); the pool replaces lost
    capacity in the background (section 4.2). *)
Inductive Call :=
| CallAcquire (executor : nat) (becomes_ready : bool)
| CallTimeout (executor : nat)
| CallRelease (executor : nat) (healthy : bool)
| ProbeFailures (sandbox : nat)
| Replace (becomes_ready : bool).

Definition step (s : System) (c : Call) : System :=
  match c with
  | CallAcquire e ok =>
      if decide (is_Some (bound s !! e) \/ e ∈ waiting s) then s
      else snd (acquireSandbox s e ok)
  | CallTimeout e => snd (acquire_timeout s e)
  | CallRelease e healthy =>
      match bound s !! e with
      | Some id => serve (releaseSandbox (unbind s e) id healthy)
      | None => s
      end
  | ProbeFailures id =>
      mkSystem (delete id (sandboxes s)) (max_size s) (next_id s) (waiting s)
               (filter (fun kv => kv.2 ≠ id) (bound s))
  | Replace ok =>
      if (size (sandboxes s) <? max_size s)%nat then
        if ok then
          serve (mkSystem (<[next_id s := Ready]> (sandboxes s)) (max_size s)
                          (S (next_id s)) (waiting s) (bound s))
        else
          mkSystem (sandboxes s) (max_size s) (S (next_id s)) (waiting s) (bound s)
      else s
  end.

Definition run (s : System) (calls : list Call) : System := foldl step s calls.

(** Executor [e] holds sandbox [id]. *)
Definition holds (s : System) (e id : nat) : Prop := bound s !! e = Some id.

(** What every reachable state satisfies: a borrowed sandbox is InUse, no
    sandbox has two borrowers, and identifiers in the pool are older than the
    next fresh one. *)
Record Inv (s : System) : Prop := {
  inv_in_use : forall e id, bound s !! e = Some id -> sandboxes s !! id = Some InUse;
  inv_exclusive :
    forall e1 e2 id, bound s !! e1 = Some id -> bound s !! e2 = Some id -> e1 = e2;
  inv_fresh : forall id st, sandboxes s !! id = Some st -> (id < next_id s)%nat
}.

End SandboxPool.

Module JobQueueConsumer.

(** Modelled from the spec: the Job of section 3 and the queue message of
    section 6. *)
Record Job := mkJob {
  run_id : string;
  payload : list Byte.byte;
  attempt : nat
}.

Inductive RetryableFault := PoolExhausted | SandboxLost.

(** Modelled from the spec: the terminal states of the RunExecutor state
    machine of section 4.4. *)
Inductive Outcome :=
| Succeeded
| FailedRun
| Requeued (why : RetryableFault).

Inductive Status := succeeded | failed | permanently_failed.

Inductive QueueAction :=
| Ack (run : string)
| Requeue (j : Job)
| Report (run : string) (st : Status).

(** Modelled from the spec: the Acquiring state of section 4.4, where
    PoolExhausted leads to Requeued and a granted sandbox to Executing
    ([None]: not terminal yet). *)
Definition after_acquire (r : SandboxPool.AcquireResult) : option Outcome :=
  match r with
  | SandboxPool.Refused SandboxPool.PoolExhausted => Some (Requeued PoolExhausted)
  | SandboxPool.Granted _ | SandboxPool.Suspended => None
  end.

(** Modelled from the spec: the acknowledgment policy of section 4.3.  A
    retryable failure requeues the job with its attempt count incremented;
    once the job has reached the configured maximum attempt count it is
    acknowledged as permanently failed and reported. *)
Definition settle (max_attempts : nat) (j : Job) (o : Outcome) : list QueueAction :=
  match o with
  | Succeeded => [Ack (run_id j); Report (run_id j) succeeded]
  | FailedRun => [Ack (run_id j); Report (run_id j) failed]
  | Requeued _ =>
      if (attempt j <? max_attempts)%nat
      then [Requeue (mkJob (run_id j) (payload j) (S (attempt j)))]
      else [Ack (run_id j); Report (run_id j) permanently_failed]
  end.

(** Modelled from the spec: the consumer of section 4.3, with its in-memory
    set of in-flight run identifiers and the RunExecutions that are alive
    (created on dequeue, destroyed on a terminal state). *)
Record Consumer := mkConsumer {
  in_flight : gset string;
  executions : list Job
}.

Definition idle : Consumer := mkConsumer ∅ [].

(** Modelled from the spec: one delivery from the queue (section 4.3). *)
Definition receive (c : Consumer) (j : Job) : list QueueAction * Consumer :=
  if decide (run_id j ∈ in_flight c)
  then ([Ack (run_id j)], c)
  else ([], mkConsumer ({[run_id j]} ∪ in_flight c) (executions c ++ [j])).

Fixpoint take_run (r : string) (l : list Job) : option (Job * list Job) :=
  match l with
  | [] => None
  | j :: rest =>
      if decide (run_id j = r) then Some (j, rest)
      else match take_run r rest with
           | Some (x, rest') => Some (x, j :: rest')
           | None => None
           end
  end.

(** Modelled from the spec: the RunExecutor of run [r] reaches the terminal
    state [o]; its execution is destroyed and the job settled. *)
Definition complete (max_attempts : nat) (c : Consumer) (r : string) (o : Outcome)
  : list QueueAction * Consumer :=
  match take_run r (executions c) with
  | Some (j, rest) => (settle max_attempts j o, mkConsumer (in_flight c ∖ {[r]}) rest)
  | None => ([], c)
  end.

Inductive Event :=
| Deliver (j : Job)
| Terminal (run : string) (o : Outcome).

Definition handle (max_attempts : nat) (c : Consumer) (e : Event)
  : list QueueAction * Consumer :=
  match e with
  | Deliver j => receive c j
  | Terminal r o => complete max_attempts c r o
  end.

Definition consume (max_attempts : nat) (c : Consumer) (evs : list Event) : Consumer :=
  foldl (fun c e => snd (handle max_attempts c e)) c evs.

(** Number of live executions for run [r]. *)
Definition live (r : string) (c : Consumer) : nat :=
  length (filter (fun j => run_id j = r) (executions c)).

Definition ids (l : list Job) : list string := run_id <$> l.

(** The in-flight set names exactly the live executions, one per run. *)
Record Inv (c : Consumer) : Prop := {
  inv_nodup : NoDup (ids (executions c));
  inv_in_flight : forall r, r ∈ in_flight c <-> r ∈ ids (executions c)
}.


(** Job 42 of the scenarios of section 8, on attempt [n]. *)
Definition job42 (n : nat) : Job := mkJob "42" [] n.

End JobQueueConsumer.

Module Worker.
Import JobQueueConsumer.

(** Modelled from the spec: the worker of section 2, whose source is
    missing.  It joins the pool, the consumer and the RunExecutors: each
    executor has a number and drives one job. *)
Record State := mkState {
  pool : SandboxPool.System;
  consumer : Consumer;
  running : gmap nat Job;
  next_executor : nat
}.

Definition init (max_size : nat) : State :=
  mkState (SandboxPool.init max_size) idle ∅ 0.

(** Modelled from the spec: what reaches the worker.  The queue delivers a
    job (4.3); the timeout of a suspended acquisition elapses (4.2); a run
    that is executing ends, with or without an execution fault (4.4); a
    sandbox fails three liveness probes in a row (4.1); the pool starts a
    replacement (4.2).  [becomes_ready] tells whether a sandbox created on
    the occasion reaches Ready in time. *)
Inductive Event :=
| Delivery (j : Job) (becomes_ready : bool)
| AcquireTimeout (e : nat)
| RunEnds (e : nat) (faultless : bool)
| SandboxLost (sandbox : nat)
| Replacement (becomes_ready : bool).

(** The executor bound to sandbox [id], if any. *)
Definition holder (s : SandboxPool.System) (id : nat) : option nat :=
  fst <$> head (map_to_list (filter (fun kv => kv.2 = id) (SandboxPool.bound s))).

(** Modelled from the spec: executor [e] reaches the terminal state [o]
    (4.4); its execution is destroyed and the consumer settles its job on the
    queue (4.3).  [p] is the pool after the transition. *)
Definition finish (max_attempts : nat) (w : State) (e : nat) (o : Outcome)
    (p : SandboxPool.System) : list QueueAction * State :=
  match running w !! e with
  | Some j =>
      let '(acts, c) := complete max_attempts (consumer w) (run_id j) o in
      (acts, mkState p c (delete e (running w)) (next_executor w))
  | None => ([], mkState p (consumer w) (running w) (next_executor w))
  end.

(** Modelled from the spec: the control flow of section 2.  A delivery whose
    run is in flight is acknowledged and discarded; otherwise a new executor
    takes the job and asks the pool for a sandbox, and is served, suspended
    or refused.  A refusal, at once or by timeout, is PoolExhausted and ends
    the run Requeued. *)
Definition step (max_attempts : nat) (w : State) (ev : Event)
  : list QueueAction * State :=
  match ev with
  | Delivery j becomes_ready =>
      if decide (run_id j ∈ in_flight (consumer w)) then
        (fst (receive (consumer w) j), w)
      else
        let e := next_executor w in
        let '(r, p) := SandboxPool.acquireSandbox (pool w) e becomes_ready in
        let w1 := mkState p (snd (receive (consumer w) j))
                          (<[e := j]> (running w)) (S e) in
        match after_acquire r with
        | Some o => finish max_attempts w1 e o p
        | None => ([], w1)
        end
  | AcquireTimeout e =>
      let '(r, p) := SandboxPool.acquire_timeout (pool w) e in
      match r ≫= after_acquire with
      | Some o => finish max_attempts w e o p
      | None => ([], w)
      end
  | RunEnds e faultless =>
      match SandboxPool.bound (pool w) !! e with
      | Some _ =>
          finish max_attempts w e (if faultless then Succeeded else FailedRun)
                 (SandboxPool.step (pool w) (SandboxPool.CallRelease e faultless))
      | None => ([], w)
      end
  | SandboxLost id =>
      let p := SandboxPool.step (pool w) (SandboxPool.ProbeFailures id) in
      match holder (pool w) id with
      | Some e => finish max_attempts w e (Requeued JobQueueConsumer.SandboxLost) p
      | None => ([], mkState p (consumer w) (running w) (next_executor w))
      end
  | Replacement becomes_ready =>
      ([], mkState (SandboxPool.step (pool w) (SandboxPool.Replace becomes_ready))
                   (consumer w) (running w) (next_executor w))
  end.

Definition run (max_attempts : nat) (w : State) (evs : list Event) : State :=
  foldl (fun w ev => snd (step max_attempts w ev)) w evs.







(** The scenario of section 8: the only sandbox is taken by job 41 when job
    42, on attempt [n], is delivered. *)
Definition job41 : Job := mkJob "41" [] 1.
Definition pool_full_then_42 (n : nat) : list Event :=
  [Delivery job41 true; Delivery (job42 n) true].

End Worker.

(* ===================================================================== *)
(** * Part II: properties                                                *)
(* ===================================================================== *)

Module StartBrowserSpec.
Import StartBrowser.

Example dead_trace_length : length (trace (start_browser world_dead)) = 94%nat.
Proof. vm_compute. reflexivity. Qed.

Example healthy_trace :
  start_browser world_healthy =
  (0%Z, prologue world_healthy ++ confirm_events world_healthy 1 ++ [Wait 4242]).
Proof. reflexivity. Qed.

Example slow_trace_lifecycle :
  lifecycle (trace (start_browser world_slow_prewarm_fails)) = Ready.
Proof. vm_compute. reflexivity. Qed.

(** *** One attempt *)

Lemma attempt_ok w i :
  get_ok w i = true -> attempt w i = (Break, confirm_events w i).
Proof.
  unfold get_ok, attempt, curl_api, pre_warm, or_true, curl_navigate.
  intros H. cbn. rewrite H. cbn.
  destruct (curl_exit false (navigate_post w) =? 0)%Z; reflexivity.
Qed.

Lemma attempt_fail w i :
  get_ok w i = false -> attempt w i = (Next, retry_events w i).
Proof.
  unfold get_ok, attempt, curl_api. intros H. cbn. rewrite H. reflexivity.
Qed.

Lemma confirms_get_ok w i : confirms w i = get_ok w i.
Proof.
  unfold confirms. destruct (get_ok w i) eqn:E.
  - rewrite (attempt_ok _ _ E). reflexivity.
  - rewrite (attempt_fail _ _ E). reflexivity.
Qed.

Lemma get_ok_response w i :
  get_ok w i = true <-> exists st, api_get w i = HttpResponse st.
Proof.
  unfold get_ok. split.
  - destruct (api_get w i) as [st|c]; [eauto|]. cbn. discriminate.
  - intros [st ->]. reflexivity.
Qed.

(** *** The loop *)

Lemma for_in_all_fail w items :
  Forall (fun i => get_ok w i = false) items ->
  for_in items (attempt w) = (Next, flat_map (retry_events w) items).
Proof.
  induction 1 as [|i rest Hi _ IH]; [reflexivity|].
  cbn [for_in flat_map]. rewrite (attempt_fail _ _ Hi). unfold bind.
  rewrite IH. reflexivity.
Qed.

Lemma for_in_first_ok w before i after :
  Forall (fun j => get_ok w j = false) before ->
  get_ok w i = true ->
  for_in (before ++ i :: after) (attempt w) =
  (Break, flat_map (retry_events w) before ++ confirm_events w i).
Proof.
  intros Hb Hi. induction Hb as [|j rest Hj _ IH].
  - cbn [app for_in flat_map]. rewrite (attempt_ok _ _ Hi). reflexivity.
  - cbn [app for_in flat_map]. rewrite (attempt_fail _ _ Hj). unfold bind.
    rewrite IH. rewrite <- app_assoc. reflexivity.
Qed.

(** Either every index fails, or there is a first one that succeeds. *)
Lemma first_ok_split w items :
  Forall (fun i => get_ok w i = false) items \/
  exists before i after,
    items = before ++ i :: after /\
    Forall (fun j => get_ok w j = false) before /\ get_ok w i = true.
Proof.
  induction items as [|i rest IH]; [left; constructor|].
  destruct (get_ok w i) eqn:E.
  - right. exists [], i, rest. repeat split; [constructor | assumption].
  - destruct IH as [IH | (b & k & a & -> & Hb & Hk)].
    + left. constructor; assumption.
    + right. exists (i :: b), k, a. repeat split; [constructor|]; assumption.
Qed.

Lemma seq_split_at k n :
  (1 <= k <= n)%nat -> seq 1 n = seq 1 (k - 1) ++ k :: seq (S k) (n - k).
Proof.
  intros H. replace n with ((k - 1) + S (n - k))%nat at 1 by lia.
  rewrite seq_app. cbn [seq]. replace (1 + (k - 1))%nat with k by lia.
  reflexivity.
Qed.

Lemma seq_prefix_inv before i after n :
  seq 1 n = before ++ i :: after ->
  (1 <= i <= n)%nat /\ before = seq 1 (i - 1).
Proof.
  intros H.
  assert (Hlen : (length before < n)%nat).
  { apply (f_equal (@length nat)) in H.
    rewrite length_seq, length_app in H. cbn in H. lia. }
  assert (Hi : i = S (length before)).
  { assert (Hn : nth (length before) (seq 1 n) 0%nat = i).
    { rewrite H, nth_middle. reflexivity. }
    rewrite seq_nth in Hn by assumption. lia. }
  split; [lia|].
  rewrite (seq_split_at i n) in H by lia.
  apply app_inj_1 in H; [symmetry; apply H|].
  rewrite length_seq. lia.
Qed.

Lemma poll_shape w : PollShape w.
Proof.
  destruct (first_ok_split w (seq 1 30)) as [Hall | (b & k & a & E & Hb & Hk)].
  - apply NeverConfirmed.
    + intros i Hi. rewrite Forall_forall in Hall. apply Hall.
      apply elem_of_seq. lia.
    + apply for_in_all_fail, Hall.
  - destruct (seq_prefix_inv _ _ _ _ E) as [Hr ->].
    apply (ConfirmedAt w k Hr).
    + intros j Hj. rewrite Forall_forall in Hb. apply Hb.
      apply elem_of_seq. lia.
    + assumption.
    + unfold health_poll. rewrite E. apply for_in_first_ok; assumption.
Qed.

Lemma start_browser_unfold w :
  start_browser w =
  (browser_status w,
   prologue w ++ trace (health_poll w) ++ [Wait (browser_pid w)]).
Proof.
  unfold start_browser, trace. destruct (health_poll w) as [c t].
  reflexivity.
Qed.

Lemma start_browser_trace w :
  trace (start_browser w) =
  prologue w ++ trace (health_poll w) ++ [Wait (browser_pid w)].
Proof. rewrite start_browser_unfold. reflexivity. Qed.

Lemma start_browser_value w : value (start_browser w) = browser_status w.
Proof. rewrite start_browser_unfold. reflexivity. Qed.

(** *** Facts about traces *)

Lemma announced_app line t1 t2 :
  announced line (t1 ++ t2) = announced line t1 || announced line t2.
Proof. apply existsb_app. Qed.

Lemma announced_retries line w items :
  (forall i, is_echo line (Echo ("Waiting... (" +:+ decimal i +:+ "/30)")) = false) ->
  announced line (flat_map (retry_events w) items) = false.
Proof.
  intros H. induction items as [|i rest IH]; [reflexivity|].
  cbn [flat_map]. rewrite announced_app, IH.
  unfold announced, retry_events. cbn [existsb]. rewrite H. reflexivity.
Qed.

Lemma count_if_app p t1 t2 :
  count_if p (t1 ++ t2) = (count_if p t1 + count_if p t2)%nat.
Proof. unfold count_if. rewrite List.filter_app, length_app. reflexivity. Qed.

Lemma count_get_retries w items :
  count_if is_get (flat_map (retry_events w) items) = length items.
Proof.
  induction items as [|i rest IH]; [reflexivity|].
  cbn [flat_map]. rewrite count_if_app, IH. reflexivity.
Qed.

Lemma count_post_retries w items :
  count_if is_post (flat_map (retry_events w) items) = 0%nat.
Proof.
  induction items as [|i rest IH]; [reflexivity|].
  cbn [flat_map]. rewrite count_if_app, IH. reflexivity.
Qed.

Lemma no_post_retries w items :
  forallb (fun e => negb (is_post e)) (flat_map (retry_events w) items) = true.
Proof.
  induction items as [|i rest IH]; [reflexivity|].
  cbn [flat_map]. rewrite forallb_app, IH. reflexivity.
Qed.

Lemma sleep_in_retries w items n :
  In (Sleep n) (flat_map (retry_events w) items) -> n = 1%nat.
Proof.
  rewrite in_flat_map. intros (i & _ & Hi). cbn in Hi.
  destruct Hi as [Hi | [Hi | [Hi | []]]]; congruence.
Qed.

(** An event that does not occur in [front] and splits [front ++ back]
    lies in [back]. *)
Lemma split_past_front (p : Event -> bool) front back pre e post :
  forallb (fun x => negb (p x)) front = true ->
  p e = true ->
  front ++ back = pre ++ e :: post ->
  exists pre', pre = front ++ pre' /\ back = pre' ++ e :: post.
Proof.
  intros Hf He. revert pre. induction front as [|a front IH]; intros pre E.
  - exists pre. split; [reflexivity | exact E].
  - cbn in Hf. apply andb_prop in Hf as [Ha Hf].
    destruct pre as [|x pre]; cbn in E; injection E as Ex E'.
    + subst a. rewrite He in Ha. discriminate.
    + subst x. destruct (IH Hf pre E') as (pre' & -> & Hb).
      exists pre'. split; [reflexivity | exact Hb].
Qed.

(** *** The claims about the script *)

(** C1. Pre-warm failure never blocks readiness.  When some liveness attempt
    within the 30 succeeds then, whatever the navigation request of the
    pre-warm meets (an error of the transfer or an error status as much as a
    success), the pre-warm step has status 0 ([|| true]), the loop is left
    through [break] after [Browser pre-warming complete!] was announced (the
    sandbox is Ready), and the script goes on to wait for the service, its
    own exit status being the service's, not curl's. *)
Theorem prewarm_failure_absorbed (w : World) (i : nat) :
  (1 <= i <= 30)%nat ->
  curl_exit false (api_get w i) = 0%Z ->
  value (pre_warm w) = 0%Z /\
  value (health_poll w) = Break /\
  lifecycle (trace (start_browser w)) = Ready /\
  last (trace (start_browser w)) = Some (Wait (browser_pid w)) /\
  value (start_browser w) = browser_status w.
Proof.
  intros Hi Hget.
  split.
  { unfold pre_warm, or_true, curl_navigate, value. cbn.
    destruct (curl_exit false (navigate_post w) =? 0)%Z eqn:E; [|reflexivity].
    apply Z.eqb_eq in E. exact E. }
  assert (Hlast : last (trace (start_browser w)) = Some (Wait (browser_pid w))).
  { rewrite start_browser_trace, !app_assoc. apply last_snoc. }
  destruct (poll_shape w) as [Hall _ | k Hk Hbefore Hok E].
  - specialize (Hall i Hi). unfold get_ok in Hall.
    rewrite Hget in Hall. discriminate.
  - repeat split; [rewrite E; reflexivity | | exact Hlast | apply start_browser_value].
    unfold lifecycle. rewrite start_browser_trace, E. unfold trace, snd.
    rewrite !announced_app.
    replace (announced "Browser pre-warming complete!" (confirm_events w k))
      with true by reflexivity.
    rewrite orb_true_r, orb_true_l, orb_true_r. reflexivity.
Qed.

(** Liveness answers at the third attempt and the navigation times out. *)
Lemma prewarm_failure_absorbed_witness :
  curl_exit false (navigate_post world_slow_prewarm_fails) = 28%Z /\
  value (pre_warm world_slow_prewarm_fails) = 0%Z /\
  value (health_poll world_slow_prewarm_fails) = Break /\
  lifecycle (trace (start_browser world_slow_prewarm_fails)) = Ready /\
  last (trace (start_browser world_slow_prewarm_fails)) = Some (Wait 4242) /\
  value (start_browser world_slow_prewarm_fails) = 0%Z.
Proof.
  split; [reflexivity|].
  apply (prewarm_failure_absorbed world_slow_prewarm_fails 3).
  - lia.
  - reflexivity.
Defined.

(** C2, as the script has it.  The liveness endpoint is polled at most 30
    times; every sleep is one second; after [k < 30] failed attempts the script
    has only printed [Waiting... (j/30)] and slept for each of them and makes
    attempt [k+1]; when all 30 attempts fail it has issued no pre-warm and
    falls through to [wait $BROWSER_PID] with the service's exit status as its
    own, the lifecycle still being [HealthPolling]: no failure is reported. *)
Theorem health_poll_bounded_retry (w : World) :
  (count_if is_get (trace (start_browser w)) <= 30)%nat /\
  (forall n, In (Sleep n) (trace (start_browser w)) -> n = 1%nat) /\
  (forall k, (k < 30)%nat ->
     (forall j, (1 <= j <= k)%nat -> curl_exit false (api_get w j) <> 0%Z) ->
     exists rest,
       trace (start_browser w) =
       prologue w ++ flat_map (retry_events w) (seq 1 k)
         ++ CurlGet api_url (api_get w (S k)) :: rest) /\
  ((forall i, (1 <= i <= 30)%nat -> curl_exit false (api_get w i) <> 0%Z) ->
     start_browser w =
       (browser_status w,
        prologue w ++ flat_map (retry_events w) (seq 1 30)
          ++ [Wait (browser_pid w)]) /\
     count_if is_post (trace (start_browser w)) = 0%nat /\
     lifecycle (trace (start_browser w)) = HealthPolling).
Proof.
  assert (Hfail : forall j, curl_exit false (api_get w j) <> 0%Z -> get_ok w j = false).
  { intros j Hj. apply Z.eqb_neq. exact Hj. }
  split; [|split; [|split]].
  - rewrite start_browser_trace, !count_if_app.
    destruct (poll_shape w) as [_ E | k Hk _ _ E]; rewrite E; unfold trace, snd.
    + rewrite count_get_retries, length_seq. cbn. lia.
    + rewrite count_if_app, count_get_retries, length_seq. cbn. lia.
  - intros n. rewrite start_browser_trace, !in_app_iff.
    intros [Hp | [Hl | Hw]].
    + cbn in Hp. destruct Hp as [Hp | [Hp | [Hp | []]]]; discriminate.
    + destruct (poll_shape w) as [_ E | k Hk _ _ E];
        rewrite E in Hl; unfold trace, snd in Hl.
      * eapply sleep_in_retries, Hl.
      * apply in_app_iff in Hl as [Hl | Hl]; [eapply sleep_in_retries, Hl|].
        cbn in Hl. repeat (destruct Hl as [Hl | Hl]; [discriminate|]).
        destruct Hl.
    + cbn in Hw. destruct Hw as [Hw | []]. discriminate.
  - intros k Hk Hbefore. rewrite start_browser_trace.
    destruct (poll_shape w) as [_ E | k0 Hk0 _ Hok E]; rewrite E; unfold trace, snd.
    + rewrite (seq_split_at (S k) 30) by lia.
      replace (S k - 1)%nat with k by lia.
      rewrite flat_map_app. cbn [flat_map retry_events].
      rewrite <- !app_assoc. cbn [app]. eexists. reflexivity.
    + assert (Hlt : (k < k0)%nat).
      { destruct (Nat.lt_ge_cases k k0) as [Hlt | Hge]; [exact Hlt|].
        rewrite (Hfail k0) in Hok by (apply Hbefore; lia). discriminate. }
      destruct (Nat.eq_dec k0 (S k)) as [-> | Hne].
      * replace (S k - 1)%nat with k by lia. unfold confirm_events.
        rewrite <- !app_assoc. cbn [app]. eexists. reflexivity.
      * rewrite (seq_split_at (S k) (k0 - 1)) by lia.
        replace (S k - 1)%nat with k by lia.
        rewrite flat_map_app. cbn [flat_map retry_events].
        rewrite <- !app_assoc. cbn [app]. eexists. reflexivity.
  - intros Hall.
    destruct (poll_shape w) as [_ E | k Hk _ Hok _].
    2:{ rewrite (Hfail k) in Hok by (apply Hall; lia). discriminate. }
    split; [rewrite start_browser_unfold, E; reflexivity|].
    rewrite start_browser_trace, E. unfold trace, snd. split.
    + rewrite !count_if_app, count_post_retries. reflexivity.
    + unfold lifecycle. rewrite !announced_app.
      rewrite !announced_retries by reflexivity. reflexivity.
Qed.

Lemma health_poll_bounded_retry_witness :
  start_browser world_dead =
    (0%Z,
     prologue world_dead ++ flat_map (retry_events world_dead) (seq 1 30)
       ++ [Wait 4242]) /\
  count_if is_post (trace (start_browser world_dead)) = 0%nat /\
  lifecycle (trace (start_browser world_dead)) = HealthPolling.
Proof.
  apply (health_poll_bounded_retry world_dead).
  intros i _. discriminate.
Defined.

(** C2 as the specification words it fails where nothing answers on the
    port: after thirty failed attempts the lifecycle is [HealthPolling], not
    [Failed HealthCheckTimeout], and the script ends on the same [wait] and
    with the same exit status as in the healthy run. *)
Lemma timeout_not_reported :
  (forall i, curl_exit false (api_get world_dead i) <> 0%Z) /\
  lifecycle (trace (start_browser world_dead)) = HealthPolling /\
  last (trace (start_browser world_dead)) =
    last (trace (start_browser world_healthy)) /\
  value (start_browser world_dead) = value (start_browser world_healthy) /\
  ~ timeout_reported world_dead.
Proof.
  assert (H : lifecycle (trace (start_browser world_dead)) = HealthPolling)
    by (vm_compute; reflexivity).
  repeat split; try (vm_compute; reflexivity).
  - intros i. discriminate.
  - intros C. unfold timeout_reported in C. rewrite H in C.
    assert (E : HealthPolling = Failed HealthCheckTimeout)
      by (apply C; intros i _; discriminate).
    discriminate E.
Qed.

(** C3, as the script has it.  An attempt confirms health exactly when curl
    exits with status 0, that is, exactly when the endpoint sent an HTTP
    response, whatever its status code; every 2xx response confirms. *)
Theorem confirmed_iff_responded (w : World) (i : nat) :
  (confirms w i = true <-> curl_exit false (api_get w i) = 0%Z) /\
  (confirms w i = true <-> exists st, api_get w i = HttpResponse st) /\
  (is_2xx (api_get w i) = true -> confirms w i = true).
Proof.
  rewrite confirms_get_ok. split; [|split].
  - unfold get_ok. apply Z.eqb_eq.
  - apply get_ok_response.
  - intros H. apply get_ok_response.
    destruct (api_get w i) as [st|c]; [eauto | discriminate].
Qed.

Lemma confirmed_iff_responded_witness :
  confirms world_healthy 1 = true.
Proof.
  apply (confirmed_iff_responded world_healthy 1). reflexivity.
Defined.

(** C3 as the specification words it fails on a server that answers 500:
    the first attempt confirms health although the response is not 2xx. *)
Lemma confirmed_by_500 :
  api_get world_500 1 = HttpResponse 500 /\
  confirms world_500 1 = true /\
  is_2xx (api_get world_500 1) = false /\
  lifecycle (trace (start_browser world_500)) = Ready /\
  ~ confirmed_iff_2xx world_500 1.
Proof.
  repeat split; try reflexivity.
  intros [C _]. specialize (C eq_refl). discriminate C.
Qed.

(** C4. The pre-warm request is issued only after a liveness attempt has
    succeeded: whenever a POST occurs in the trace of the script, the events
    before it contain the GET of an attempt whose curl exited with 0, and the
    POST is the blank navigation. *)
Theorem prewarm_only_after_health (w : World) (pre post : list Event) (e : Event) :
  trace (start_browser w) = pre ++ e :: post ->
  is_post e = true ->
  e = CurlPost navigate_url json_header blank_body (navigate_post w) /\
  exists i, (1 <= i <= 30)%nat /\
    curl_exit false (api_get w i) = 0%Z /\
    In (CurlGet api_url (api_get w i)) pre.
Proof.
  intros E He. rewrite start_browser_trace in E.
  destruct (poll_shape w) as [_ Ep | k Hk _ Hok Ep];
    rewrite Ep in E; unfold trace, snd in E.
  - rewrite app_assoc in E.
    apply (split_past_front is_post) in E as (pre' & _ & E); [| |exact He].
    + destruct pre' as [|x [|y pre']]; cbn in E; try discriminate E.
      injection E as <- _. discriminate He.
    + rewrite forallb_app, no_post_retries. reflexivity.
  - rewrite <- app_assoc, app_assoc in E.
    apply (split_past_front is_post) in E as (pre' & -> & E); [| |exact He].
    + assert (Hshape : pre' = [CurlGet api_url (api_get w k);
                               Echo "Browser API is ready!";
                               Echo "Pre-warming browser..."] /\
                       e = CurlPost navigate_url json_header blank_body
                             (navigate_post w)).
      { unfold confirm_events in E. cbn [app] in E.
        destruct pre' as [|x1 [|x2 [|x3 [|x4 [|x5 [|x6 [|x7 pre']]]]]]];
          cbn [app] in E; injection E; intros; subst;
          try discriminate He; try discriminate; split; reflexivity. }
      destruct Hshape as [-> ->]. split; [reflexivity|].
      exists k. split; [exact Hk|]. split.
      * apply Z.eqb_eq. exact Hok.
      * apply in_or_app. right. left. reflexivity.
    + rewrite forallb_app, no_post_retries. reflexivity.
Qed.

Lemma prewarm_only_after_health_witness :
  exists i, (1 <= i <= 30)%nat /\
    curl_exit false (api_get world_healthy i) = 0%Z /\
    In (CurlGet api_url (api_get world_healthy i))
       (prologue world_healthy ++
        [CurlGet api_url (HttpResponse 200);
         Echo "Browser API is ready!"; Echo "Pre-warming browser..."]).
Proof.
  apply (prewarm_only_after_health world_healthy
           (prologue world_healthy ++
            [CurlGet api_url (HttpResponse 200);
             Echo "Browser API is ready!"; Echo "Pre-warming browser..."])
           [Echo "Browser pre-warming complete!"; Wait 4242]
           (CurlPost navigate_url json_header blank_body (HttpResponse 200))).
  - reflexivity.
  - reflexivity.
Defined.

End StartBrowserSpec.

Module JSSpec.
Import JS.

Example trim_inner_kept : trim (str "  a b  ") = str "a b".
Proof. reflexivity. Qed.

Example trim_blank : trim (str "   ") = [].
Proof. reflexivity. Qed.

(** tab, no-break space, line separator, byte order mark *)
Example trim_unicode_blank : trim [0x9; 0xA0; 0x2028; 0xFEFF]%N = [].
Proof. reflexivity. Qed.

Lemma truthy_nonempty (s : jsstring) : truthy s = true <-> s <> [].
Proof. destruct s; cbn; split; congruence. Qed.

Lemma not_truthy_empty (s : jsstring) : truthy s = false <-> s = [].
Proof. destruct s; cbn; split; congruence. Qed.

End JSSpec.

Module DashboardSpec.
Import JS Dashboard JSSpec.

Example submit_hello :
  handleSubmit (str "free") accepts_all idle_view (str "hello") None =
  [SetIsSubmitting true;
   RemoveItem (str "pendingAgentPrompt");
   ConsoleLog (str "FormData content:");
   MutateAsync
     [(str "prompt", Text (str "hello"));
      (str "enable_thinking", Text (str "false"));
      (str "reasoning_effort", Text (str "low"));
      (str "stream", Text (str "true"));
      (str "enable_context_manager", Text (str "false"))];
   ConsoleLog (str "Agent initiated:");
   RouterPush (str "/agents/t1");
   ClearPendingFiles;
   SetIsSubmitting false].
Proof. reflexivity. Qed.

Lemma rejects_iff (v : View) (msg : jsstring) :
  rejects v msg = true <->
  isSubmitting v = true \/ (trim msg = [] /\ no_pending_files v = true).
Proof.
  unfold rejects. rewrite orb_true_iff, andb_true_iff, negb_true_iff.
  rewrite not_truthy_empty. tauto.
Qed.

(** A call that is not rejected brackets exactly one agent run between
    setting and clearing [isSubmitting]. *)
Lemma handleSubmit_accepted priceId mutate v msg options :
  rejects v msg = false ->
  exists rest,
    handleSubmit priceId mutate v msg options =
    SetIsSubmitting true :: rest ++ [SetIsSubmitting false] /\
    length (List.filter initiates_run rest) = 1%nat.
Proof.
  intros H. unfold handleSubmit. rewrite H.
  exists (submit priceId mutate v msg options). split; [reflexivity|].
  unfold submit. rewrite List.filter_app. cbn [List.filter initiates_run app length].
  destruct (mutate _) as [tid | [d|]]; cbn.
  - destruct (truthy_val tid); cbn; [destruct (chatInput v)|]; reflexivity.
  - reflexivity.
  - reflexivity.
Qed.

(** C8. A call to [handleSubmit] made while [isSubmitting] is true, or with a
    message that trims to the empty string and no pending files, returns
    without any effect: no agent run is initiated and [isSubmitting] is not
    set. *)
Theorem handleSubmit_guard priceId mutate (v : View) (msg : jsstring)
    (options : option SubmitOptions) :
  isSubmitting v = true \/ (trim msg = [] /\ no_pending_files v = true) ->
  handleSubmit priceId mutate v msg options = [] /\
  existsb initiates_run (handleSubmit priceId mutate v msg options) = false /\
  existsb touches_submitting (handleSubmit priceId mutate v msg options) = false.
Proof.
  intros H. apply rejects_iff in H.
  assert (E : handleSubmit priceId mutate v msg options = []).
  { unfold handleSubmit. rewrite H. reflexivity. }
  rewrite E. repeat split.
Qed.

Lemma handleSubmit_guard_witness :
  handleSubmit (str "free") accepts_all busy_view (str "hello") None = [] /\
  handleSubmit (str "free") accepts_all idle_view (str "  ") None = [].
Proof.
  split.
  - apply (handleSubmit_guard (str "free") accepts_all busy_view (str "hello") None).
    left. reflexivity.
  - apply (handleSubmit_guard (str "free") accepts_all idle_view (str "  ") None).
    right. split; reflexivity.
Defined.

End DashboardSpec.

Module ShareLayoutSpec.
Import JS ShareLayout.

Example metadata_found :
  generateMetadata thread_found project_found env_prod (str "abc") =
  Return (fullMetaData env_prod (str "abc")
            {| name := Str (str "Demo"); description := Null |}).
Proof. reflexivity. Qed.

Example metadata_found_fields :
  match generateMetadata thread_found project_found env_prod (str "abc") with
  | Return m =>
      title m = str "Demo" /\
      md_description m = str "Replay this Agent conversation on OMNI Operator" /\
      canonical m = str "https://suna.so/share/abc" /\
      og_images (openGraph m) =
        Some [str "https://suna.so/api/share-page/og-image?title=Demo"]
  | Throw => False
  end.
Proof. cbn. repeat split. Qed.

(** C9. [generateMetadata] never throws; when fetching the thread or the
    project throws or yields no data it returns the fallback metadata; and
    whatever it returns has the canonical URL
    [NEXT_PUBLIC_URL/share/threadId]. *)
Theorem generateMetadata_total getThread getProject (env : Env)
    (threadId : jsstring) :
  exists m,
    generateMetadata getThread getProject env threadId = Return m /\
    canonical m = to_string (NEXT_PUBLIC_URL env) ++ str "/share/" ++ threadId /\
    (fetch_fails getThread getProject threadId ->
     m = fallbackMetaData env threadId).
Proof.
  unfold generateMetadata, try_body, fetch_fails.
  destruct (getThread threadId) as [|[t|]]; cbn.
  - eexists. repeat split.
  - destruct (getProject (project_id t)) as [|[p|]]; cbn.
    + eexists. repeat split.
    + eexists. split; [reflexivity|]. split; [reflexivity|]. intros [].
    + eexists. repeat split.
  - eexists. repeat split.
Qed.

Lemma generateMetadata_total_witness :
  exists m,
    generateMetadata thread_found project_throws env_prod (str "abc") = Return m /\
    canonical m = str "https://suna.so/share/abc" /\
    (fetch_fails thread_found project_throws (str "abc") ->
     m = fallbackMetaData env_prod (str "abc")).
Proof.
  apply (generateMetadata_total thread_found project_throws env_prod (str "abc")).
Defined.

End ShareLayoutSpec.

Module CustomModelDialogSpec.
Import JS CustomModelDialog JSSpec.

Example save_named :
  handleSave {| id := str " gpt "; label := [] |} =
  [StopPropagation; OnSave {| id := str " gpt "; label := [] |}].
Proof. reflexivity. Qed.

Example save_blank :
  handleSave {| id := str "  "; label := str "x" |} = [StopPropagation].
Proof. reflexivity. Qed.

(** Typing blanks into the Model ID input disables the Save button. *)
Example blank_id_disables_save :
  save_disabled
    (handleChange (str "modelId") (str "   ") {| id := str "gpt"; label := [] |})
  = true.
Proof. reflexivity. Qed.

(** C10. [onSave] is called only with form data whose id does not trim to
    the empty string: by the guard in [handleSave], and because the Save
    button is disabled exactly for such ids, so that a click on it runs
    nothing. *)
Theorem onSave_never_blank (formData modelData : CustomModelFormData) :
  (In (OnSave modelData) (handleSave formData) ->
   modelData = formData /\ trim (id modelData) <> []) /\
  (In (OnSave modelData) (click_save formData) ->
   modelData = formData /\ trim (id modelData) <> []) /\
  (save_disabled formData = true <-> trim (id formData) = []) /\
  (trim (id formData) = [] ->
   handleSave formData = [StopPropagation] /\ click_save formData = []).
Proof.
  assert (Hsave : In (OnSave modelData) (handleSave formData) ->
                  modelData = formData /\ trim (id modelData) <> []).
  { unfold handleSave. destruct (truthy (trim (id formData))) eqn:E; cbn.
    - intros [H | [H | []]]; [discriminate|]. injection H as <-.
      split; [reflexivity|]. apply truthy_nonempty, E.
    - intros [H | []]. discriminate. }
  split; [exact Hsave|]. split; [|split].
  - unfold click_save. destruct (save_disabled formData); [intros []|exact Hsave].
  - unfold save_disabled. rewrite negb_true_iff. apply not_truthy_empty.
  - intros H. unfold click_save, save_disabled, handleSave. rewrite H.
    split; reflexivity.
Qed.

Lemma onSave_never_blank_witness :
  {| id := str "gpt-4o"; label := [] |} = {| id := str "gpt-4o"; label := [] |} /\
  trim (id {| id := str "gpt-4o"; label := [] |}) <> [].
Proof.
  apply (onSave_never_blank {| id := str "gpt-4o"; label := [] |}
                            {| id := str "gpt-4o"; label := [] |}).
  right. left. reflexivity.
Defined.

End CustomModelDialogSpec.

Module SandboxPoolSpec.
Import SandboxPool.

Example two_executors_two_sandboxes :
  bound (run (init 2) [CallAcquire 7 true; CallAcquire 8 true]) =
  {[7 := 0; 8 := 1]}.
Proof. vm_compute. reflexivity. Qed.

(** With one slot, the second caller waits and is served by the release. *)
Example release_serves_waiter :
  let s := run (init 1) [CallAcquire 7 true; CallAcquire 8 true; CallRelease 7 true] in
  bound s = {[8 := 0]} /\ waiting s = [] /\ sandboxes s = {[0 := InUse]}.
Proof. vm_compute. repeat split. Qed.

Lemma find_ready_Some (m : gmap nat SandboxState) (id : nat) :
  find_ready m = Some id -> m !! id = Some Ready.
Proof.
  unfold find_ready. intros H.
  destruct (head _) as [[k st]|] eqn:Hh; [|discriminate].
  injection H as ->. apply head_Some_elem_of in Hh.
  apply elem_of_map_to_list, map_lookup_filter_Some in Hh as [Hk Hst].
  cbn in Hst. subst st. exact Hk.
Qed.

Lemma inv_init max : Inv (init max).
Proof. split; cbn; intros *; rewrite lookup_empty; discriminate. Qed.

Lemma inv_unborrowed s id :
  Inv s -> sandboxes s !! id ≠ Some InUse -> forall e, bound s !! e ≠ Some id.
Proof. intros HI Hne e He. apply Hne. eapply inv_in_use; eassumption. Qed.

(** Handing out a sandbox nobody has borrowed keeps the invariant. *)
Lemma inv_hand_out s e id :
  Inv s ->
  (forall e', bound s !! e' ≠ Some id) ->
  (id < next_id s)%nat ->
  Inv (hand_out s e id).
Proof.
  intros HI Hfree Hid. split; cbn.
  - intros e' id' H. destruct (decide (e = e')) as [->|Hne].
    + rewrite lookup_insert_eq in H. injection H as <-. apply lookup_insert_eq.
    + rewrite lookup_insert_ne in H by exact Hne.
      destruct (decide (id = id')) as [->|Hne']; [apply lookup_insert_eq|].
      rewrite lookup_insert_ne by exact Hne'. eapply inv_in_use; eassumption.
  - intros e1 e2 id' H1 H2.
    destruct (decide (e1 = e)) as [->|N1], (decide (e2 = e)) as [->|N2].
    + reflexivity.
    + rewrite lookup_insert_eq in H1. injection H1 as <-.
      rewrite lookup_insert_ne in H2 by congruence. destruct (Hfree _ H2).
    + rewrite lookup_insert_eq in H2. injection H2 as <-.
      rewrite lookup_insert_ne in H1 by congruence. destruct (Hfree _ H1).
    + rewrite lookup_insert_ne in H1 by congruence.
      rewrite lookup_insert_ne in H2 by congruence.
      eapply inv_exclusive; eassumption.
  - intros id' st H. destruct (decide (id = id')) as [<-|Hne]; [exact Hid|].
    rewrite lookup_insert_ne in H by exact Hne. eapply inv_fresh; eassumption.
Qed.

Lemma inv_hand_out_ready s e id :
  Inv s -> find_ready (sandboxes s) = Some id -> Inv (hand_out s e id).
Proof.
  intros HI Hr. apply find_ready_Some in Hr. apply inv_hand_out; [exact HI| |].
  - apply inv_unborrowed; [exact HI|]. rewrite Hr. discriminate.
  - eapply inv_fresh; eassumption.
Qed.

(** Changes that touch neither the sandboxes nor the borrowers. *)
Lemma inv_same s s' :
  Inv s -> sandboxes s' = sandboxes s -> bound s' = bound s ->
  (next_id s <= next_id s')%nat -> Inv s'.
Proof.
  intros HI Hs Hb Hn. split; rewrite ?Hs, ?Hb.
  - apply HI.
  - apply HI.
  - intros id st H. apply (inv_fresh _ HI) in H. lia.
Qed.

Lemma inv_hand_out_fresh s s' e :
  Inv s -> sandboxes s' = sandboxes s -> bound s' = bound s ->
  next_id s' = S (next_id s) -> Inv (hand_out s' e (next_id s)).
Proof.
  intros HI Hs Hb Hn.
  assert (HI' : Inv s') by (apply (inv_same s); [assumption..|lia]).
  apply inv_hand_out; [exact HI'| |lia].
  intros e' He'. rewrite Hb in He'.
  apply (inv_in_use _ HI), (inv_fresh _ HI) in He'. lia.
Qed.

Lemma inv_serve s : Inv s -> Inv (serve s).
Proof.
  intros HI. unfold serve.
  destruct (waiting s) as [|e rest]; [exact HI|].
  destruct (find_ready (sandboxes s)) as [id|] eqn:Hr; [|exact HI].
  apply inv_hand_out_ready; [|exact Hr].
  apply (inv_same s); [exact HI|reflexivity..|cbn; lia].
Qed.

Lemma inv_acquireSandbox s e ok : Inv s -> Inv (snd (acquireSandbox s e ok)).
Proof.
  intros HI. unfold acquireSandbox.
  destruct (find_ready (sandboxes s)) as [id|] eqn:Hr.
  - apply inv_hand_out_ready; assumption.
  - destruct (_ <? _)%nat; [destruct ok|]; cbn [snd].
    + apply (inv_hand_out_fresh s); [exact HI|reflexivity..].
    + apply (inv_same s); [exact HI|reflexivity..|cbn; lia].
    + apply (inv_same s); [exact HI|reflexivity..|cbn; lia].
Qed.

Lemma inv_release s e id healthy :
  Inv s -> bound s !! e = Some id ->
  Inv (releaseSandbox (unbind s e) id healthy).
Proof.
  intros HI He. split; cbn.
  - intros e' id' H. apply lookup_delete_Some in H as [Hne H].
    assert (Hid : id' ≠ id).
    { intros ->. apply Hne. eapply inv_exclusive; eassumption. }
    destruct healthy.
    + rewrite lookup_alter_ne by congruence. eapply inv_in_use; eassumption.
    + rewrite lookup_delete_ne by congruence. eapply inv_in_use; eassumption.
  - intros e1 e2 id' H1 H2.
    apply lookup_delete_Some in H1 as [_ H1].
    apply lookup_delete_Some in H2 as [_ H2].
    eapply inv_exclusive; eassumption.
  - intros id' st H. destruct healthy.
    + destruct (decide (id = id')) as [<-|Hne].
      * apply (inv_in_use _ HI), (inv_fresh _ HI) in He. exact He.
      * rewrite lookup_alter_ne in H by exact Hne. eapply inv_fresh; eassumption.
    + apply lookup_delete_Some in H as [_ H]. eapply inv_fresh; eassumption.
Qed.

Lemma inv_step s c : Inv s -> Inv (step s c).
Proof.
  intros HI. destruct c as [e ok | e | e healthy | id | ok]; cbn [step].
  - destruct (decide _); [exact HI | apply inv_acquireSandbox, HI].
  - unfold acquire_timeout. destruct (decide _); cbn [snd]; [|exact HI].
    apply (inv_same s); [exact HI|reflexivity..|cbn; lia].
  - destruct (bound s !! e) as [id|] eqn:He; [|exact HI].
    apply inv_serve, inv_release; assumption.
  - split; cbn.
    + intros e id' H. apply map_lookup_filter_Some in H as [H Hne]. cbn in Hne.
      rewrite lookup_delete_ne by congruence. eapply inv_in_use; eassumption.
    + intros e1 e2 id' H1 H2.
      apply map_lookup_filter_Some in H1 as [H1 _].
      apply map_lookup_filter_Some in H2 as [H2 _].
      eapply inv_exclusive; eassumption.
    + intros id' st H. apply lookup_delete_Some in H as [_ H].
      eapply inv_fresh; eassumption.
  - destruct (_ <? _)%nat; [destruct ok|exact HI].
    + apply inv_serve. split; cbn.
      * intros e id H. pose proof (inv_in_use _ HI _ _ H) as Hu.
        rewrite lookup_insert_ne; [exact Hu|].
        intros <-. apply (inv_fresh _ HI) in Hu. lia.
      * apply HI.
      * intros id st H. destruct (decide (next_id s = id)) as [<-|Hne]; [lia|].
        rewrite lookup_insert_ne in H by exact Hne.
        apply (inv_fresh _ HI) in H. lia.
    + apply (inv_same s); [exact HI|reflexivity..|cbn; lia].
Qed.

Lemma inv_run calls : forall s, Inv s -> Inv (run s calls).
Proof.
  induction calls as [|c calls IH]; intros s HI; [exact HI|].
  apply IH, inv_step, HI.
Qed.

(** C5. Whatever sequence of acquire, timeout, release, probe-failure and
    replacement calls the pool has served since it was created, no sandbox
    identifier is held by two executors at once. *)
Theorem no_shared_sandbox (max : nat) (calls : list Call) :
  (forall e1 e2 id,
     holds (run (init max) calls) e1 id ->
     holds (run (init max) calls) e2 id ->
     e1 = e2) /\
  (forall e ok id,
     fst (acquireSandbox (run (init max) calls) e ok) = Granted id ->
     forall e', ~ holds (run (init max) calls) e' id).
Proof.
  pose proof (inv_run calls _ (inv_init max)) as HI.
  split; [apply (inv_exclusive _ HI)|].
  intros e ok id. unfold acquireSandbox, holds.
  destruct (find_ready _) as [id'|] eqn:Hr.
  - cbn [fst]. intros [= <-]. apply find_ready_Some in Hr.
    apply inv_unborrowed; [exact HI|]. rewrite Hr. discriminate.
  - destruct (_ <? _)%nat; [destruct ok|]; cbn [fst]; try discriminate.
    intros [= <-] e' He'.
    apply (inv_in_use _ HI), (inv_fresh _ HI) in He'. lia.
Qed.

Lemma no_shared_sandbox_witness :
  holds (run (init 1) [CallAcquire 7 true; CallAcquire 8 true; CallRelease 7 true]) 8 0 /\
  8 = 8.
Proof.
  split; [reflexivity|].
  apply (proj1 (no_shared_sandbox 1
                  [CallAcquire 7 true; CallAcquire 8 true; CallRelease 7 true])
               8 8 0).
  - reflexivity.
  - reflexivity.
Defined.

End SandboxPoolSpec.

Module JobQueueConsumerSpec.
Import JobQueueConsumer.

Example redelivery_keeps_one_run :
  consume 3 idle [Deliver (job42 1); Deliver (job42 1)] =
  mkConsumer {["42"]} [job42 1].
Proof. vm_compute. reflexivity. Qed.

(** The scenario of section 8: job 42 on its first attempt comes back with
    [attempt = 2]. *)
Example job42_requeued :
  settle 3 (job42 1) (Requeued PoolExhausted) = [Requeue (job42 2)].
Proof. reflexivity. Qed.

Lemma inv_idle : Inv idle.
Proof.
  split; cbn.
  - constructor.
  - intros r. rewrite elem_of_nil. set_solver.
Qed.

Lemma take_run_Some r l j rest :
  take_run r l = Some (j, rest) ->
  exists l1 l2, l = l1 ++ j :: l2 /\ rest = l1 ++ l2 /\ run_id j = r.
Proof.
  revert j rest. induction l as [|x l IH]; intros j rest; cbn; [discriminate|].
  destruct (decide (run_id x = r)) as [Hx|Hx].
  - intros [= <- <-]. exists [], l. repeat split. exact Hx.
  - destruct (take_run r l) as [[y rest']|]; [|discriminate].
    intros [= <- <-]. destruct (IH _ _ eq_refl) as (l1 & l2 & -> & -> & Hy).
    exists (x :: l1), l2. repeat split. exact Hy.
Qed.

Lemma take_run_None r l : take_run r l = None -> r ∉ ids l.
Proof.
  induction l as [|x l IH]; cbn; [intros _; apply not_elem_of_nil|].
  destruct (decide (run_id x = r)) as [Hx|Hx]; [discriminate|].
  destruct (take_run r l) as [[y rest']|]; [discriminate|].
  intros _. rewrite not_elem_of_cons. split; [congruence | apply IH; reflexivity].
Qed.

Lemma inv_receive c j : Inv c -> Inv (snd (receive c j)).
Proof.
  intros HI. unfold receive. destruct (decide _) as [Hin|Hout]; cbn; [exact HI|].
  split; cbn.
  - unfold ids. rewrite fmap_app. apply NoDup_app. split; [apply HI|]. split.
    + intros r Hr. cbn. rewrite list_elem_of_singleton. intros ->.
      apply Hout, (inv_in_flight _ HI), Hr.
    + apply NoDup_singleton.
  - intros r. unfold ids. rewrite fmap_app, elem_of_app, elem_of_union.
    rewrite (inv_in_flight _ HI r), elem_of_singleton. cbn.
    rewrite list_elem_of_singleton. tauto.
Qed.

Lemma inv_complete n c r o : Inv c -> Inv (snd (complete n c r o)).
Proof.
  intros HI. unfold complete.
  destruct (take_run r (executions c)) as [[j rest]|] eqn:Ht; cbn; [|exact HI].
  apply take_run_Some in Ht as (l1 & l2 & El & -> & <-).
  pose proof (inv_nodup _ HI) as Hnd.
  pose proof (inv_in_flight _ HI) as Hif.
  rewrite El in Hnd, Hif. unfold ids in *.
  rewrite fmap_app, fmap_cons in Hnd, Hif.
  apply NoDup_app in Hnd as (Hn1 & Hdisj & Hn2).
  apply NoDup_cons in Hn2 as [Hj Hn2].
  split; cbn.
  - rewrite fmap_app. apply NoDup_app. split; [exact Hn1|]. split; [|exact Hn2].
    intros x Hx Hx'. apply (Hdisj x Hx). right. exact Hx'.
  - intros x. rewrite elem_of_difference, Hif, fmap_app, !elem_of_app.
    rewrite elem_of_cons, elem_of_singleton. split.
    + intros [[H1 | [-> | H2]] Hne]; [left; exact H1 | congruence | right; exact H2].
    + intros [H1 | H2].
      * split; [left; exact H1|]. intros ->. apply (Hdisj _ H1). left.
      * split; [right; right; exact H2|]. intros ->. exact (Hj H2).
Qed.

Lemma inv_consume n evs : forall c, Inv c -> Inv (consume n c evs).
Proof.
  induction evs as [|e evs IH]; intros c HI; [exact HI|].
  apply IH. destruct e as [j | r o]; [apply inv_receive | apply inv_complete];
    exact HI.
Qed.

Lemma live_count (r : string) (l : list Job) :
  NoDup (ids l) ->
  length (filter (fun j => run_id j = r) l) = if decide (r ∈ ids l) then 1%nat else 0%nat.
Proof.
  induction l as [|x l IH]; [intros _; reflexivity|].
  unfold ids in *. rewrite fmap_cons.
  intros [Hx Hnd]%NoDup_cons. specialize (IH Hnd).
  rewrite filter_cons. destruct (decide (run_id x = r)) as [<-|Hne].
  - cbn. rewrite IH. rewrite decide_False by exact Hx.
    rewrite decide_True by (left). reflexivity.
  - rewrite IH. destruct (decide (r ∈ run_id <$> l)) as [Hin|Hout].
    + rewrite decide_True by (right; exact Hin). reflexivity.
    + rewrite decide_False; [reflexivity|].
      rewrite not_elem_of_cons. split; [congruence | exact Hout].
Qed.

(** C6. In every state the consumer reaches there is at most one live
    execution per run identifier; a delivery whose run is in flight is
    acknowledged and leaves the state as it is; and after a job has been
    received, a redelivery of its run identifier is acknowledged, changes
    nothing and leaves exactly one execution for it. *)
Theorem redelivery_is_noop (max_attempts : nat) (evs : list Event) (j j' : Job) :
  run_id j' = run_id j ->
  (live (run_id j) (consume max_attempts idle evs) <= 1)%nat /\
  (run_id j ∈ in_flight (consume max_attempts idle evs) ->
   receive (consume max_attempts idle evs) j' =
   ([Ack (run_id j')], consume max_attempts idle evs)) /\
  receive (snd (receive (consume max_attempts idle evs) j)) j' =
    ([Ack (run_id j')], snd (receive (consume max_attempts idle evs) j)) /\
  live (run_id j) (snd (receive (consume max_attempts idle evs) j)) = 1%nat.
Proof.
  intros Eid.
  pose proof (inv_consume max_attempts evs _ inv_idle) as HI.
  set (c := consume max_attempts idle evs) in *.
  pose proof (inv_receive c j HI) as HI1.
  assert (Hin1 : run_id j ∈ in_flight (snd (receive c j))).
  { unfold receive. destruct (decide _) as [Hin|Hout]; cbn; [exact Hin|].
    set_solver. }
  assert (Hack : forall c0, run_id j ∈ in_flight c0 ->
                            receive c0 j' = ([Ack (run_id j')], c0)).
  { intros c0 H0. unfold receive. rewrite Eid.
    rewrite decide_True by exact H0. reflexivity. }
  split; [|split; [|split]].
  - unfold live. rewrite (live_count _ _ (inv_nodup _ HI)).
    destruct (decide _); lia.
  - apply Hack.
  - apply Hack, Hin1.
  - unfold live. rewrite (live_count _ _ (inv_nodup _ HI1)).
    rewrite decide_True; [reflexivity|]. apply (inv_in_flight _ HI1), Hin1.
Qed.

Lemma redelivery_is_noop_witness :
  receive (snd (receive (consume 3 idle []) (job42 1))) (job42 2) =
    ([Ack "42"], snd (receive (consume 3 idle []) (job42 1))) /\
  live "42" (snd (receive (consume 3 idle []) (job42 1))) = 1%nat.
Proof.
  apply (redelivery_is_noop 3 [] (job42 1) (job42 2) eq_refl).
Defined.

End JobQueueConsumerSpec.

Module WorkerSpec.
Import JobQueueConsumer JobQueueConsumerSpec Worker.

(** Job 42, first attempt, delivered to a full pool, waits; when its timeout
    elapses it comes back with [attempt = 2] and leaves the in-flight set. *)
Example job42_times_out :
  let w := run 3 (init 1) (pool_full_then_42 1) in
  SandboxPool.waiting (pool w) = [1%nat] /\
  step 3 w (AcquireTimeout 1) =
  ([Requeue (job42 2)],
   mkState (SandboxPool.mkSystem {[0%nat := SandboxPool.InUse]} 1 1 [] {[0%nat := 0%nat]})
           (mkConsumer {["41"]} [job41]) {[0%nat := job41]} 2).
Proof. vm_compute. split; reflexivity. Qed.













End WorkerSpec.

(** ** Further properties of start_browser.sh *)

Module StartBrowserMore.
Import StartBrowser StartBrowserSpec.

Lemma get_ok_false_iff w i :
  get_ok w i = false <-> curl_exit false (api_get w i) <> 0%Z.
Proof. unfold get_ok. apply Z.eqb_neq. Qed.

Lemma get_ok_true_iff w i :
  get_ok w i = true <-> curl_exit false (api_get w i) = 0%Z.
Proof. unfold get_ok. apply Z.eqb_eq. Qed.

Lemma health_poll_confirmed_at w k :
  (1 <= k <= 30)%nat ->
  (forall j, (1 <= j < k)%nat -> get_ok w j = false) ->
  get_ok w k = true ->
  health_poll w =
  (Break, flat_map (retry_events w) (seq 1 (k - 1)) ++ confirm_events w k).
Proof.
  intros Hk Hbefore Hok. unfold health_poll.
  rewrite (seq_split_at k 30 Hk). apply for_in_first_ok; [|exact Hok].
  apply Forall_forall. intros j Hj. apply elem_of_seq in Hj.
  apply Hbefore. lia.
Qed.

Lemma health_poll_never w :
  (forall i, (1 <= i <= 30)%nat -> get_ok w i = false) ->
  health_poll w = (Next, flat_map (retry_events w) (seq 1 30)).
Proof.
  intros Hall. apply for_in_all_fail, Forall_forall.
  intros i Hi. apply elem_of_seq in Hi. apply Hall. lia.
Qed.

Lemma count_if_retries p w items c :
  (forall i, count_if p (retry_events w i) = c) ->
  count_if p (flat_map (retry_events w) items) = (c * length items)%nat.
Proof.
  intros H. induction items as [|i rest IH]; [cbn; lia|].
  cbn [flat_map length]. rewrite count_if_app, IH, H. lia.
Qed.

Lemma total_sleep_app t1 t2 :
  total_sleep (t1 ++ t2) = (total_sleep t1 + total_sleep t2)%nat.
Proof. unfold total_sleep. rewrite map_app, list_sum_app. reflexivity. Qed.

Lemma total_sleep_retries w items :
  total_sleep (flat_map (retry_events w) items) = length items.
Proof.
  induction items as [|i rest IH]; [reflexivity|].
  cbn [flat_map length]. rewrite total_sleep_app, IH. reflexivity.
Qed.

Lemma some_attempt_ok_shape w :
  some_attempt_ok w <-> exists k, (1 <= k <= 30)%nat /\
    health_poll w =
    (Break, flat_map (retry_events w) (seq 1 (k - 1)) ++ confirm_events w k).
Proof.
  split.
  - intros (i & Hi & Hok).
    destruct (poll_shape w) as [Hall _ | k Hk _ _ E].
    + apply get_ok_true_iff in Hok. rewrite (Hall i Hi) in Hok. discriminate.
    + exists k. split; assumption.
  - intros (k & Hk & E).
    destruct (poll_shape w) as [_ E' | k' Hk' _ Hok _].
    + rewrite E in E'. discriminate.
    + exists k'. split; [exact Hk' | apply get_ok_true_iff, Hok].
Qed.

(** X1. Polling stops at the first success.  When attempt [k] is the first
    whose curl exits with 0, the script has made exactly [k] liveness
    requests, slept [k - 1] times for [k - 1] seconds in all, issued exactly
    one pre-warm request, and its trace is the prologue, the [k - 1] retries,
    the confirmation and the final wait. *)
Theorem polling_stops_at_first_success (w : World) (k : nat) :
  (1 <= k <= 30)%nat ->
  (forall j, (1 <= j < k)%nat -> curl_exit false (api_get w j) <> 0%Z) ->
  curl_exit false (api_get w k) = 0%Z ->
  trace (start_browser w) =
    prologue w ++ flat_map (retry_events w) (seq 1 (k - 1))
      ++ confirm_events w k ++ [Wait (browser_pid w)] /\
  count_if is_get (trace (start_browser w)) = k /\
  count_if is_sleep (trace (start_browser w)) = (k - 1)%nat /\
  total_sleep (trace (start_browser w)) = (k - 1)%nat /\
  count_if is_post (trace (start_browser w)) = 1%nat.
Proof.
  intros Hk Hbefore Hok.
  assert (E : health_poll w =
    (Break, flat_map (retry_events w) (seq 1 (k - 1)) ++ confirm_events w k)).
  { apply health_poll_confirmed_at; [exact Hk| |apply get_ok_true_iff, Hok].
    intros j Hj. apply get_ok_false_iff, Hbefore, Hj. }
  rewrite start_browser_trace, E. unfold trace, snd.
  split; [rewrite <- app_assoc; reflexivity|].
  rewrite !count_if_app, !total_sleep_app, total_sleep_retries.
  rewrite (count_if_retries is_get w _ 1), (count_if_retries is_sleep w _ 1),
    (count_if_retries is_post w _ 0) by reflexivity.
  rewrite length_seq. cbn. repeat split; lia.
Qed.

Lemma polling_stops_at_first_success_witness :
  count_if is_get (trace (start_browser world_slow_prewarm_fails)) = 3%nat /\
  count_if is_sleep (trace (start_browser world_slow_prewarm_fails)) = 2%nat /\
  total_sleep (trace (start_browser world_slow_prewarm_fails)) = 2%nat /\
  count_if is_post (trace (start_browser world_slow_prewarm_fails)) = 1%nat.
Proof.
  apply (polling_stops_at_first_success world_slow_prewarm_fails 3).
  - lia.
  - intros j Hj. assert (Hc : j = 1%nat \/ j = 2%nat) by lia.
    destruct Hc as [-> | ->]; discriminate.
  - reflexivity.
Defined.

(** X2. The script pre-warms at most once, and it pre-warms, announces
    [Browser API is ready!] and announces [Browser pre-warming complete!]
    exactly when some attempt among the thirty has a curl that exits with 0;
    otherwise it does none of the three. *)
Theorem prewarm_and_ready_iff_confirmed (w : World) :
  (count_if is_post (trace (start_browser w)) <= 1)%nat /\
  (some_attempt_ok w <-> count_if is_post (trace (start_browser w)) = 1%nat) /\
  (some_attempt_ok w <->
   announced "Browser API is ready!" (trace (start_browser w)) = true) /\
  (some_attempt_ok w <->
   announced "Browser pre-warming complete!" (trace (start_browser w)) = true).
Proof.
  rewrite start_browser_trace.
  destruct (poll_shape w) as [Hall E | k Hk Hb Hok E].
  - assert (Hno : ~ some_attempt_ok w).
    { intros (i & Hi & Hi'). apply get_ok_true_iff in Hi'.
      rewrite (Hall i Hi) in Hi'. discriminate. }
    rewrite E. unfold trace, snd.
    rewrite !count_if_app, (count_if_retries is_post w _ 0) by reflexivity.
    rewrite !announced_app, !announced_retries by reflexivity.
    cbn. repeat split; try lia; try (intros H; destruct (Hno H));
      discriminate.
  - assert (Hyes : some_attempt_ok w).
    { exists k. split; [exact Hk | apply get_ok_true_iff, Hok]. }
    rewrite E. unfold trace, snd.
    rewrite !count_if_app, (count_if_retries is_post w _ 0) by reflexivity.
    rewrite !announced_app, !announced_retries by reflexivity.
    cbn. repeat split; try lia; intros _; exact Hyes.
Qed.

Lemma prewarm_and_ready_iff_confirmed_witness :
  announced "Browser API is ready!" (trace (start_browser world_last_chance)) = true.
Proof.
  apply (prewarm_and_ready_iff_confirmed world_last_chance).
  exists 30%nat. split; [lia | reflexivity].
Defined.

(** X3. A service that never answers costs thirty sleeps: the thirtieth
    failed attempt is still followed by its message and a one-second sleep
    before the script moves on to [wait]. *)
Theorem gives_up_after_thirty_sleeps (w : World) :
  (forall i, (1 <= i <= 30)%nat -> curl_exit false (api_get w i) <> 0%Z) ->
  count_if is_get (trace (start_browser w)) = 30%nat /\
  count_if is_sleep (trace (start_browser w)) = 30%nat /\
  total_sleep (trace (start_browser w)) = 30%nat /\
  exists front,
    trace (start_browser w) =
    front ++ [CurlGet api_url (api_get w 30); Echo "Waiting... (30/30)";
              Sleep 1; Wait (browser_pid w)].
Proof.
  intros Hall.
  assert (E : health_poll w = (Next, flat_map (retry_events w) (seq 1 30))).
  { apply health_poll_never. intros i Hi. apply get_ok_false_iff, Hall, Hi. }
  rewrite start_browser_trace, E. unfold trace, snd.
  rewrite !count_if_app, !total_sleep_app, total_sleep_retries.
  rewrite (count_if_retries is_get w _ 1), (count_if_retries is_sleep w _ 1)
    by reflexivity.
  rewrite length_seq. repeat split.
  exists (prologue w ++ flat_map (retry_events w) (seq 1 29)).
  change (seq 1 30) with (seq 1 29 ++ [30%nat]).
  rewrite flat_map_app, <- !app_assoc. reflexivity.
Qed.

Lemma gives_up_after_thirty_sleeps_witness :
  total_sleep (trace (start_browser world_dead)) = 30%nat.
Proof.
  apply (gives_up_after_thirty_sleeps world_dead).
  intros i _. discriminate.
Defined.

Lemma retries_agree w w' items :
  (forall i, In i items -> api_get w' i = api_get w i) ->
  flat_map (retry_events w') items = flat_map (retry_events w) items.
Proof.
  induction items as [|i rest IH]; intros H; [reflexivity|].
  cbn [flat_map]. unfold retry_events at 1 3.
  rewrite (H i) by (left; reflexivity).
  rewrite IH by (intros j Hj; apply H; right; exact Hj). reflexivity.
Qed.

Lemma forget_retries w items :
  map forget_post_outcome (flat_map (retry_events w) items) =
  flat_map (retry_events w) items.
Proof.
  induction items as [|i rest IH]; [reflexivity|].
  cbn [flat_map]. rewrite map_app, IH. reflexivity.
Qed.

(** Two worlds that answer the liveness requests alike up to an attempt that
    succeeds (or up to the thirtieth) are polled alike. *)
Lemma polls_agree w w' k :
  (1 <= k <= 30)%nat ->
  k = 30%nat \/ get_ok w k = true ->
  (forall i, (1 <= i <= k)%nat -> api_get w' i = api_get w i) ->
  value (health_poll w') = value (health_poll w) /\
  map forget_post_outcome (trace (health_poll w')) =
    map forget_post_outcome (trace (health_poll w)) /\
  (navigate_post w' = navigate_post w -> health_poll w' = health_poll w).
Proof.
  intros Hk Hend Hagree.
  assert (Hsame : forall i, (1 <= i <= k)%nat -> get_ok w' i = get_ok w i).
  { intros i Hi. unfold get_ok. rewrite (Hagree i Hi). reflexivity. }
  destruct (poll_shape w) as [Hall E | k0 Hk0 Hb Hok E].
  - assert (k = 30%nat) as ->.
    { destruct Hend as [-> | Hc]; [reflexivity|].
      rewrite (Hall k Hk) in Hc. discriminate. }
    assert (E' : health_poll w' = (Next, flat_map (retry_events w') (seq 1 30))).
    { apply health_poll_never. intros i Hi. rewrite (Hsame i Hi). apply Hall, Hi. }
    assert (Er : flat_map (retry_events w') (seq 1 30) =
                 flat_map (retry_events w) (seq 1 30)).
    { apply retries_agree. intros i Hi. apply in_seq in Hi. apply Hagree. lia. }
    rewrite E, E', Er. repeat split.
  - assert (Hle : (k0 <= k)%nat).
    { destruct Hend as [-> | Hc]; [lia|].
      destruct (Nat.le_gt_cases k0 k) as [Hle | Hgt]; [exact Hle|].
      rewrite (Hb k) in Hc by lia. discriminate. }
    assert (E' : health_poll w' =
      (Break, flat_map (retry_events w') (seq 1 (k0 - 1)) ++ confirm_events w' k0)).
    { apply health_poll_confirmed_at; [exact Hk0| |].
      - intros j Hj. rewrite Hsame by lia. apply Hb, Hj.
      - rewrite Hsame by lia. exact Hok. }
    assert (Er : flat_map (retry_events w') (seq 1 (k0 - 1)) =
                 flat_map (retry_events w) (seq 1 (k0 - 1))).
    { apply retries_agree. intros i Hi. apply in_seq in Hi. apply Hagree. lia. }
    rewrite E, E', Er. unfold value, trace, fst, snd.
    split; [reflexivity|]. split.
    + rewrite !map_app. f_equal. unfold confirm_events.
      rewrite (Hagree k0) by lia. reflexivity.
    + intros Hp. unfold confirm_events. rewrite (Hagree k0), Hp by lia.
      reflexivity.
Qed.

(** X4. Once an attempt has succeeded the liveness endpoint is not asked
    again, and it is never asked outside the indices 1 to 30: two runs whose
    liveness answers agree up to an attempt [k] that succeeds (or up to the
    thirtieth), and which agree on the navigation answer and on the service
    process, are the same run, whatever the endpoint would have answered
    later. *)
Theorem later_answers_never_consulted (w w' : World) (k : nat) :
  (1 <= k <= 30)%nat ->
  k = 30%nat \/ curl_exit false (api_get w k) = 0%Z ->
  (forall i, (1 <= i <= k)%nat -> api_get w' i = api_get w i) ->
  navigate_post w' = navigate_post w ->
  browser_pid w' = browser_pid w ->
  browser_status w' = browser_status w ->
  start_browser w' = start_browser w.
Proof.
  intros Hk Hend Hagree Hpost Hpid Hst.
  rewrite !start_browser_unfold. unfold prologue.
  rewrite Hpid, Hst.
  destruct (polls_agree w w' k Hk) as (_ & _ & E); [|exact Hagree|].
  - destruct Hend as [-> | H]; [left; reflexivity | right; apply get_ok_true_iff, H].
  - rewrite (E Hpost). reflexivity.
Qed.

Lemma later_answers_never_consulted_witness :
  start_browser world_flaky =
  start_browser (world_of (fun i => if (i <? 3)%nat then TransferError 7
                                    else HttpResponse 200)
                          (HttpResponse 200)).
Proof.
  apply (later_answers_never_consulted _ world_flaky 3).
  - lia.
  - right. reflexivity.
  - intros i Hi. assert (Hc : i = 1%nat \/ i = 2%nat \/ i = 3%nat) by lia.
    destruct Hc as [-> | [-> | ->]]; reflexivity.
  - reflexivity.
  - reflexivity.
  - reflexivity.
Defined.

(** X5. What the navigation endpoint answers to the pre-warm has no
    influence on the run: two worlds that differ only in that answer give the
    same exit status and, the answer recorded with the POST apart, the same
    trace. *)
Theorem prewarm_outcome_not_observed (w w' : World) :
  (forall i, (1 <= i <= 30)%nat -> api_get w' i = api_get w i) ->
  browser_pid w' = browser_pid w ->
  browser_status w' = browser_status w ->
  value (start_browser w') = value (start_browser w) /\
  map forget_post_outcome (trace (start_browser w')) =
    map forget_post_outcome (trace (start_browser w)) /\
  lifecycle (trace (start_browser w')) = lifecycle (trace (start_browser w)).
Proof.
  intros Hagree Hpid Hst.
  destruct (polls_agree w w' 30) as (_ & E & _);
    [lia | left; reflexivity | exact Hagree |].
  assert (Et : map forget_post_outcome (trace (start_browser w')) =
               map forget_post_outcome (trace (start_browser w))).
  { rewrite !start_browser_trace, !map_app, E. unfold prologue.
    rewrite Hpid. reflexivity. }
  split; [rewrite !start_browser_value; exact Hst|]. split; [exact Et|].
  assert (Ha : forall line t,
             announced line (map forget_post_outcome t) = announced line t).
  { intros line t. unfold announced. induction t as [|e t IH]; [reflexivity|].
    cbn [map existsb]. rewrite IH. destruct e; reflexivity. }
  unfold lifecycle.
  rewrite <- (Ha _ (trace (start_browser w'))), <- (Ha "Pre-warming browser..."
    (trace (start_browser w'))), <- (Ha "Waiting for Browser API to start..."
    (trace (start_browser w'))), Et, !Ha. reflexivity.
Qed.

Lemma prewarm_outcome_not_observed_witness :
  map forget_post_outcome (trace (start_browser world_slow_prewarm_fails)) =
  map forget_post_outcome
    (trace (start_browser
       (world_of (fun i => if (i <? 3)%nat then TransferError 7
                           else HttpResponse 200)
                 (HttpResponse 200)))).
Proof.
  apply (prewarm_outcome_not_observed _ world_slow_prewarm_fails).
  - intros i _. reflexivity.
  - reflexivity.
  - reflexivity.
Defined.

(** X6. Whatever the endpoints answer, the script starts the service exactly
    once, before any request, and its last action is to wait for that very
    process, whose exit status becomes its own: it has no early exit. *)
Theorem spawned_once_waited_last (w : World) :
  count_if is_spawn (trace (start_browser w)) = 1%nat /\
  count_if is_wait (trace (start_browser w)) = 1%nat /\
  (exists mid,
     trace (start_browser w) =
     Echo "Starting Browser API service..."
       :: Spawn "python /app/browser_api.py" (browser_pid w)
       :: mid ++ [Wait (browser_pid w)]) /\
  value (start_browser w) = browser_status w.
Proof.
  rewrite start_browser_trace, start_browser_value.
  assert (Hc : count_if is_spawn (trace (health_poll w)) = 0%nat /\
               count_if is_wait (trace (health_poll w)) = 0%nat).
  { destruct (poll_shape w) as [_ E | k _ _ _ E]; rewrite E; unfold trace, snd;
      rewrite ?count_if_app, (count_if_retries is_spawn w _ 0),
        (count_if_retries is_wait w _ 0) by reflexivity; split; reflexivity. }
  destruct Hc as [Hs Hw].
  rewrite !count_if_app, Hs, Hw. repeat split.
  exists (Echo "Waiting for Browser API to start..." :: trace (health_poll w)).
  reflexivity.
Qed.

End StartBrowserMore.

(** ** Further properties of the JavaScript values *)

Module JSMore.
Import JS JSSpec.

Lemma trimStart_nil_iff (s : jsstring) :
  trimStart s = [] <-> forallb strippable s = true.
Proof.
  induction s as [|c s IH]; cbn; [tauto|].
  destruct (strippable c); cbn; [exact IH|]. split; discriminate.
Qed.

Lemma trimStart_stable (s : jsstring) :
  forallb strippable (trimStart s) = true -> trimStart s = [].
Proof.
  induction s as [|c s IH]; cbn; [reflexivity|].
  destruct (strippable c) eqn:E; [exact IH|]. cbn. rewrite E. discriminate.
Qed.

Lemma forallb_rev (f : N -> bool) (l : list N) :
  forallb f (rev l) = forallb f l.
Proof.
  induction l as [|x l IH]; [reflexivity|].
  cbn. rewrite forallb_app, IH. cbn. rewrite andb_true_r. apply andb_comm.
Qed.

Lemma rev_nil_iff (l : list N) : rev l = [] <-> l = [].
Proof.
  split; [|intros ->; reflexivity].
  intros H. apply (f_equal (@rev N)) in H. rewrite rev_involutive in H. exact H.
Qed.

(** [trim] gives the empty string exactly on strings made of white space and
    line terminators only. *)
Lemma trim_nil_iff (s : jsstring) :
  trim s = [] <-> forallb strippable s = true.
Proof.
  unfold trim, trimEnd. rewrite rev_nil_iff, trimStart_nil_iff, forallb_rev.
  split.
  - intros H. apply trimStart_nil_iff, trimStart_stable, H.
  - intros H. apply trimStart_nil_iff in H. rewrite H. reflexivity.
Qed.

Lemma or_literal_nonempty (v : strval) (d : jsstring) :
  d <> [] -> or_literal v d <> [].
Proof.
  intros Hd. destruct v as [| |s]; cbn; try exact Hd.
  destruct s; cbn; [exact Hd | discriminate].
Qed.

End JSMore.

(** ** Further properties of the dashboard page *)

Module DashboardMore.
Import JS Dashboard JSSpec JSMore DashboardSpec.

#[local] Arguments str : simpl never.

Lemma find_app_or {A} (p : A -> bool) (l1 l2 : list A) :
  List.find p (l1 ++ l2) =
  match List.find p l1 with Some x => Some x | None => List.find p l2 end.
Proof.
  induction l1 as [|x l1 IH]; [reflexivity|].
  cbn. destruct (p x); [reflexivity | exact IH].
Qed.

Lemma find_files_other (key : jsstring) (files : list File) :
  key <> str "files" ->
  List.find (has_key key) (map (fun f => (str "files", Blob f (file_name f))) files)
  = None.
Proof.
  intros Hne. induction files as [|f files IH]; [reflexivity|].
  cbn [map List.find]. unfold has_key at 1. cbn [fst].
  rewrite bool_decide_eq_false_2 by congruence. exact IH.
Qed.

Lemma filter_files_all (files : list File) :
  List.filter (has_key (str "files"))
    (map (fun f => (str "files", Blob f (file_name f))) files)
  = map (fun f => (str "files", Blob f (file_name f))) files.
Proof.
  induction files as [|f files IH]; [reflexivity|].
  cbn [map List.filter]. unfold has_key at 1. cbn [fst].
  rewrite bool_decide_eq_true_2 by reflexivity. rewrite IH. reflexivity.
Qed.

(** X7. What the form carries.  The prompt is the message as typed, not
    trimmed; the pending files follow in their order, each under its own
    name; [model_name] is left out when it is absent or empty; and without
    options the four switches have their defaults. *)
Theorem form_carries_message_and_files (msg : jsstring) (files : list File)
    (options : option SubmitOptions) :
  form_get (str "prompt") (build_form msg files options) = Some (Text msg) /\
  form_getAll (str "files") (build_form msg files options) =
    map (fun f => Blob f (file_name f)) files /\
  (form_get (str "model_name") (build_form msg files options) = None <->
   opt_field options model_name = None \/ opt_field options model_name = Some []) /\
  (options = None ->
   form_get (str "enable_thinking") (build_form msg files options)
     = Some (Text (str "false")) /\
   form_get (str "reasoning_effort") (build_form msg files options)
     = Some (Text (str "low")) /\
   form_get (str "stream") (build_form msg files options)
     = Some (Text (str "true")) /\
   form_get (str "enable_context_manager") (build_form msg files options)
     = Some (Text (str "false")) /\
   length (build_form msg files options) = (5 + length files)%nat).
Proof.
  unfold form_get, form_getAll, build_form. split; [reflexivity|].
  split; [|split].
  - rewrite !List.filter_app, filter_files_all.
    rewrite !map_app, map_map.
    destruct (opt_field options model_name) as [m|]; [destruct (truthy m)|];
      cbn; apply app_nil_r.
  - change ([(str "prompt", Text msg)] ++ ?l) with ((str "prompt", Text msg) :: l).
    cbn [List.find]. unfold has_key at 1. cbn [fst].
    rewrite bool_decide_eq_false_2 by discriminate.
    rewrite find_app_or, find_files_other by discriminate.
    destruct (opt_field options model_name) as [m|] eqn:Em.
    + destruct m as [|c m]; cbn.
      * split; [intros _; right; reflexivity | reflexivity].
      * split; [discriminate | intros [H | H]; discriminate].
    + cbn. split; [intros _; left; reflexivity | reflexivity].
  - intros ->. cbn [opt_field default app].
    cbn [List.find]. unfold has_key at 1 3 5 7. cbn [fst].
    rewrite !bool_decide_eq_false_2 by discriminate.
    rewrite !find_app_or, !find_files_other by discriminate.
    cbn. rewrite length_app, length_map. cbn. repeat split. lia.
Qed.

Lemma form_carries_message_and_files_witness :
  form_get (str "stream") (build_form (str " hi ") [] None) = Some (Text (str "true")).
Proof.
  apply (form_carries_message_and_files (str " hi ") [] None). reflexivity.
Defined.

Lemma handleSubmit_shape priceId mutate v msg options :
  rejects v msg = false ->
  handleSubmit priceId mutate v msg options =
  [SetIsSubmitting true; RemoveItem PENDING_PROMPT_KEY;
   ConsoleLog (str "FormData content:");
   MutateAsync (build_form msg (default [] (chatInput v)) options)]
  ++ after_mutation priceId v
       (mutate (build_form msg (default [] (chatInput v)) options))
  ++ [SetIsSubmitting false].
Proof.
  intros H. unfold handleSubmit, submit, after_mutation. rewrite H.
  reflexivity.
Qed.

Lemma accepted_iff (v : View) (msg : jsstring) :
  rejects v msg = false <->
  isSubmitting v = false /\
  (forallb strippable msg = false \/ no_pending_files v = false).
Proof.
  unfold rejects. rewrite orb_false_iff, andb_false_iff, negb_false_iff.
  assert (Ht : truthy (trim msg) = true <-> forallb strippable msg = false).
  { rewrite truthy_nonempty, trim_nil_iff. apply not_true_iff_false. }
  rewrite Ht. tauto.
Qed.

Lemma blank_call_is_dropped priceId mutate v msg options :
  forallb strippable msg = true -> no_pending_files v = true ->
  handleSubmit priceId mutate v msg options = [].
Proof.
  intros Hb Hf. unfold handleSubmit.
  replace (rejects v msg) with true; [reflexivity|].
  symmetry. apply rejects_iff. right. split; [apply trim_nil_iff, Hb | exact Hf].
Qed.

Ltac split_in H :=
  repeat (destruct H as [H | H]; [try discriminate H|]);
  try (exfalso; exact H).

(** X8. A call is dropped exactly when a submission is in flight, or when
    the message consists of white space and line terminators only and no
    file is pending; a single visible character, or a single pending file,
    is enough for the call to go through. *)
Theorem handleSubmit_dropped_iff_blank priceId mutate (v : View)
    (msg : jsstring) (options : option SubmitOptions) :
  handleSubmit priceId mutate v msg options = [] <->
  isSubmitting v = true \/
  (forallb strippable msg = true /\ no_pending_files v = true).
Proof.
  rewrite <- trim_nil_iff, <- rejects_iff.
  destruct (rejects v msg) eqn:E.
  - unfold handleSubmit. rewrite E. tauto.
  - rewrite (handleSubmit_shape _ _ _ _ _ E). split; discriminate.
Qed.

Lemma handleSubmit_dropped_iff_blank_witness :
  handleSubmit (str "free") accepts_all idle_view [0x20; 0xA; 0x3000]%N None = [].
Proof.
  apply (handleSubmit_dropped_iff_blank (str "free") accepts_all idle_view).
  right. split; reflexivity.
Defined.

(** X9. A call that goes through sets [isSubmitting], removes the pending
    prompt from local storage and sends the form once, in that order, and
    always ends by clearing [isSubmitting]: whether the mutation resolves,
    resolves without a thread id, or rejects. *)
Theorem submission_always_resets priceId mutate (v : View) (msg : jsstring)
    (options : option SubmitOptions) :
  isSubmitting v = false ->
  forallb strippable msg = false \/ no_pending_files v = false ->
  (exists mid,
     handleSubmit priceId mutate v msg options =
     [SetIsSubmitting true; RemoveItem PENDING_PROMPT_KEY;
      ConsoleLog (str "FormData content:");
      MutateAsync (build_form msg (default [] (chatInput v)) options)]
     ++ mid ++ [SetIsSubmitting false]) /\
  count_eff touches_submitting (handleSubmit priceId mutate v msg options) = 2%nat /\
  count_eff initiates_run (handleSubmit priceId mutate v msg options) = 1%nat.
Proof.
  intros Hs Hm.
  assert (E : rejects v msg = false) by (apply accepted_iff; tauto).
  rewrite (handleSubmit_shape _ _ _ _ _ E).
  split; [eexists; reflexivity|].
  unfold count_eff. rewrite !List.filter_app, !length_app.
  destruct (mutate _) as [tid | [d|]]; cbn.
  - destruct (truthy_val tid); cbn; [destruct (chatInput v)|]; split; reflexivity.
  - split; reflexivity.
  - split; reflexivity.
Qed.

Lemma submission_always_resets_witness :
  count_eff touches_submitting
    (handleSubmit (str "free") over_limit two_files [] None) = 2%nat /\
  count_eff initiates_run
    (handleSubmit (str "free") over_limit two_files [] None) = 1%nat.
Proof.
  apply (submission_always_resets (str "free") over_limit two_files [] None).
  - reflexivity.
  - right. reflexivity.
Defined.

Lemma push_facts priceId mutate (v : View)
    (msg : jsstring) (options : option SubmitOptions) :
  (forall href,
     In (RouterPush href) (handleSubmit priceId mutate v msg options) <->
     rejects v msg = false /\
     exists tid,
       mutate (build_form msg (default [] (chatInput v)) options) = Resolved tid /\
       truthy_val tid = true /\ href = str "/agents/" ++ to_string tid) /\
  (count_eff is_push (handleSubmit priceId mutate v msg options) <= 1)%nat /\
  (In ClearPendingFiles (handleSubmit priceId mutate v msg options) ->
   exists href, In (RouterPush href) (handleSubmit priceId mutate v msg options)).
Proof.
  destruct (rejects v msg) eqn:E.
  { unfold handleSubmit. rewrite E. cbn. split; [|split; [lia|intros []]].
    intros href. split; [intros [] | intros [H _]; discriminate H]. }
  rewrite (handleSubmit_shape _ _ _ _ _ E).
  set (fd := build_form msg (default [] (chatInput v)) options).
  unfold count_eff. rewrite !List.filter_app, !length_app.
  destruct (mutate fd) as [tid | [d|]] eqn:Em; cbn.
  - destruct (truthy_val tid) eqn:Et; cbn.
    + split; [|split].
      * intros href. split.
        -- intros H. split; [reflexivity|]. exists tid.
           split; [reflexivity|]. split; [exact Et|].
           split_in H.
           ++ injection H as <-. reflexivity.
           ++ apply in_app_iff in H as [H | H]; [destruct (chatInput v)|];
                split_in H.
        -- intros [_ (tid' & [= <-] & _ & ->)].
           do 5 right. left. reflexivity.
      * destruct (chatInput v); cbn; lia.
      * intros _. eexists. do 5 right. left. reflexivity.
    + split; [|split; [lia|]].
      * intros href. split.
        -- intros H. split_in H.
        -- intros [_ (tid' & [= <-] & Ht & _)]. congruence.
      * intros H. split_in H.
  - split; [|split; [lia|]].
    + intros href. split.
      * intros H. split_in H.
      * intros [_ (tid' & Hr & _)]. discriminate Hr.
    + intros H. split_in H.
  - split; [|split; [lia|]].
    + intros href. split.
      * intros H. split_in H.
      * intros [_ (tid' & Hr & _)]. discriminate Hr.
    + intros H. split_in H.
Qed.

Ltac peel H pre :=
  repeat (destruct pre as [|? pre]; cbn [app] in H;
          [try discriminate H | injection H as <- H]);
  try (destruct pre; discriminate H).

(** The pending files are cleared right after the navigation and right
    before the final [setIsSubmitting(false)], wherever they are cleared. *)
Lemma clear_right_after_push priceId mutate v msg options pre post :
  handleSubmit priceId mutate v msg options = pre ++ ClearPendingFiles :: post ->
  exists front tid,
    mutate (build_form msg (default [] (chatInput v)) options) = Resolved tid /\
    pre = front ++ [RouterPush (str "/agents/" ++ to_string tid)] /\
    post = [SetIsSubmitting false].
Proof.
  destruct (rejects v msg) eqn:E.
  { unfold handleSubmit. rewrite E. intros H. destruct pre; discriminate H. }
  rewrite (handleSubmit_shape _ _ _ _ _ E).
  set (fd := build_form msg (default [] (chatInput v)) options).
  unfold after_mutation, on_error.
  destruct (mutate fd) as [tid | [d|]]; [destruct (truthy_val tid); [destruct (chatInput v)|]| |];
    cbn [app]; intros H; peel H pre.
  injection H as <-.
  eexists [_; _; _; _; _], tid. repeat split.
Qed.

(** X10. The page navigates only to the thread the mutation returned: a
    [router.push] happens exactly when the call goes through and the mutation
    resolves with a non-empty thread id, and then to [/agents/<thread id>];
    there is at most one; and the pending files are cleared only after such
    a navigation: wherever [clearPendingFiles] occurs among the effects, the
    effect just before it is that [router.push] and the only one after it is
    the final [setIsSubmitting(false)], so a failed submission keeps the
    files. *)
Theorem navigates_only_with_thread_id priceId mutate (v : View)
    (msg : jsstring) (options : option SubmitOptions) :
  (forall href,
     In (RouterPush href) (handleSubmit priceId mutate v msg options) <->
     rejects v msg = false /\
     exists tid,
       mutate (build_form msg (default [] (chatInput v)) options) = Resolved tid /\
       truthy_val tid = true /\ href = str "/agents/" ++ to_string tid) /\
  (count_eff is_push (handleSubmit priceId mutate v msg options) <= 1)%nat /\
  (forall pre post,
     handleSubmit priceId mutate v msg options = pre ++ ClearPendingFiles :: post ->
     exists front tid,
       mutate (build_form msg (default [] (chatInput v)) options) = Resolved tid /\
       pre = front ++ [RouterPush (str "/agents/" ++ to_string tid)] /\
       post = [SetIsSubmitting false]).
Proof.
  destruct (push_facts priceId mutate v msg options) as (Hpush & Hcount & _).
  split; [exact Hpush|]. split; [exact Hcount|].
  intros pre post. apply clear_right_after_push.
Qed.

Lemma navigates_only_with_thread_id_witness :
  In (RouterPush (str "/agents/t1"))
     (handleSubmit (str "free") accepts_all idle_view (str "hello") None) /\
  exists front tid,
    accepts_all (build_form (str "hello") [] None) = Resolved tid /\
    [SetIsSubmitting true; RemoveItem PENDING_PROMPT_KEY;
     ConsoleLog (str "FormData content:");
     MutateAsync (build_form (str "hello") [] None);
     ConsoleLog (str "Agent initiated:"); RouterPush (str "/agents/t1")]
    = front ++ [RouterPush (str "/agents/" ++ to_string tid)] /\
    [SetIsSubmitting false] = [SetIsSubmitting false].
Proof.
  destruct (navigates_only_with_thread_id (str "free") accepts_all idle_view
              (str "hello") None) as (Hpush & _ & Horder).
  split.
  - apply Hpush. split; [reflexivity|]. exists (Str (str "t1")). repeat split.
  - apply (Horder _ [SetIsSubmitting false]). reflexivity.
Defined.

(** X11. The billing alert is raised only for a billing error of the
    mutation, never together with a navigation; its message is never empty
    (the default text stands in for a missing one), usage and limit are
    passed on, and a missing subscription is shown as the Free plan. *)
Theorem billing_alert_only_on_billing_error priceId mutate (v : View)
    (msg : jsstring) (options : option SubmitOptions) :
  (forall info,
     In (HandleBillingError info) (handleSubmit priceId mutate v msg options) ->
     exists d,
       mutate (build_form msg (default [] (chatInput v)) options)
         = Rejected (BillingError d) /\
       message info <> [] /\
       currentUsage info = detail_currentUsage d /\
       limit info = detail_limit d /\
       subscription info = default (free_plan priceId) (detail_subscription d) /\
       count_eff is_push (handleSubmit priceId mutate v msg options) = 0%nat) /\
  (forall d,
     rejects v msg = false ->
     mutate (build_form msg (default [] (chatInput v)) options)
       = Rejected (BillingError d) ->
     exists info,
       In (HandleBillingError info) (handleSubmit priceId mutate v msg options)).
Proof.
  destruct (rejects v msg) eqn:E.
  { unfold handleSubmit. rewrite E. cbn. split; [intros info []|].
    intros d H. discriminate H. }
  rewrite (handleSubmit_shape _ _ _ _ _ E).
  set (fd := build_form msg (default [] (chatInput v)) options).
  unfold count_eff. rewrite !List.filter_app, !length_app.
  destruct (mutate fd) as [tid | [d|]] eqn:Em; cbn.
  - split; [|intros d _ H; discriminate H].
    intros info H. destruct (truthy_val tid); cbn in H.
    + split_in H. apply in_app_iff in H as [H | H];
        [destruct (chatInput v)|]; split_in H.
    + split_in H.
  - split.
    + intros info H. split_in H. injection H as <-. exists d. cbn.
      split; [reflexivity|]. split; [|repeat split].
      apply or_literal_nonempty. discriminate.
    + intros d' _ [= <-]. eexists. do 6 right. left. reflexivity.
  - split; [|intros d _ H; discriminate H].
    intros info H. split_in H.
Qed.

Lemma billing_alert_only_on_billing_error_witness :
  exists info,
    In (HandleBillingError info)
       (handleSubmit (str "free") over_limit idle_view (str "hello") None).
Proof.
  apply (proj2 (billing_alert_only_on_billing_error (str "free") over_limit
                  idle_view (str "hello") None)
           {| detail_message := Undefined; detail_currentUsage := Some 60%Z;
              detail_limit := Some 60%Z; detail_subscription := None |}).
  - reflexivity.
  - reflexivity.
Defined.

(** X12. The pending prompt.  A non-empty prompt found in local storage
    becomes the input and arms the automatic submission, an empty or missing
    one does neither.  When the timer fires on an input with a visible
    character the form is sent with that input as prompt, the stored prompt
    having been removed first, and [autoSubmit] is cleared right after the
    call of the mutation; on an input of white space only, with no file
    pending, nothing is sent, the stored prompt is not removed, and
    [autoSubmit] is cleared all the same. *)
Theorem pending_prompt_auto_submit priceId mutate (input : jsstring)
    (ref : option (list File)) (stored : strval) :
  (truthy_val stored = false ->
   load_pending_prompt stored = [GetItem PENDING_PROMPT_KEY]) /\
  (truthy input = true ->
   load_pending_prompt (Str input) =
     [GetItem PENDING_PROMPT_KEY; SetInputValue input; SetAutoSubmit true] /\
   auto_submit_due true input false = true) /\
  (forallb strippable input = true ->
   no_pending_files {| isSubmitting := false; chatInput := ref |} = true ->
   auto_submit_fire priceId mutate
     {| isSubmitting := false; chatInput := ref |} input
   = [SetAutoSubmit false]) /\
  (forallb strippable input = false ->
   exists rest,
     auto_submit_fire priceId mutate
       {| isSubmitting := false; chatInput := ref |} input
     = [Handler (SetIsSubmitting true);
        Handler (RemoveItem PENDING_PROMPT_KEY);
        Handler (ConsoleLog (str "FormData content:"));
        Handler (MutateAsync (build_form input (default [] ref) None));
        SetAutoSubmit false] ++ rest /\
     last rest = Some (Handler (SetIsSubmitting false))).
Proof.
  split; [|split; [|split]].
  - intros H. unfold load_pending_prompt. rewrite H. reflexivity.
  - intros H. unfold load_pending_prompt, auto_submit_due. cbn. rewrite H.
    split; reflexivity.
  - intros Hb Hf. unfold auto_submit_fire.
    assert (E : handleSubmit priceId mutate
                  {| isSubmitting := false; chatInput := ref |} input None = []).
    { apply blank_call_is_dropped; [exact Hb | exact Hf]. }
    rewrite E. reflexivity.
  - intros Hv. unfold auto_submit_fire.
    rewrite handleSubmit_shape by (apply accepted_iff; cbn; tauto).
    cbn [app until_await initiates_run chatInput].
    eexists. split; [reflexivity|].
    rewrite map_app. apply last_snoc.
Qed.

Lemma pending_prompt_auto_submit_witness :
  auto_submit_fire (str "free") accepts_all idle_view (str "  ") = [SetAutoSubmit false].
Proof.
  apply (pending_prompt_auto_submit (str "free") accepts_all (str "  ")
           (Some []) Null); reflexivity.
Defined.

End DashboardMore.

(** ** Further properties of generateMetadata *)

Module ShareLayoutMore.
Import JS ShareLayout JSSpec JSMore.

#[local] Arguments str : simpl never.

Lemma full_is_not_fallback env threadId p :
  fullMetaData env threadId p <> fallbackMetaData env threadId.
Proof. intros H. apply (f_equal twitter) in H. discriminate H. Qed.

(** The three ways a call can go. *)
Lemma generateMetadata_cases getThread getProject env threadId :
  (fetch_fails getThread getProject threadId /\
   generateMetadata getThread getProject env threadId =
     Return (fallbackMetaData env threadId)) \/
  (exists t p,
     getThread threadId = Yields (Some t) /\
     getProject (project_id t) = Yields (Some p) /\
     ~ fetch_fails getThread getProject threadId /\
     generateMetadata getThread getProject env threadId =
       Return (fullMetaData env threadId p)).
Proof.
  unfold generateMetadata, try_body, fetch_fails.
  destruct (getThread threadId) as [|[t|]]; cbn; [left; split; [exact I|reflexivity]| |
    left; split; [exact I|reflexivity]].
  destruct (getProject (project_id t)) as [|[p|]] eqn:Ep; cbn;
    [left; split; [exact I|reflexivity]| |left; split; [exact I|reflexivity]].
  right. exists t, p. repeat split; [exact Ep | intros []].
Qed.

(** X13. The fallback is returned exactly when a fetch fails: the returned
    metadata is the fallback, has no Twitter card and no Open Graph image if
    and only if fetching the thread or the project throws or yields no data;
    otherwise it carries both. *)
Theorem fallback_iff_fetch_fails getThread getProject (env : Env)
    (threadId : jsstring) :
  (generateMetadata getThread getProject env threadId =
     Return (fallbackMetaData env threadId)
   <-> fetch_fails getThread getProject threadId) /\
  (forall m,
     generateMetadata getThread getProject env threadId = Return m ->
     (twitter m = None <-> fetch_fails getThread getProject threadId) /\
     (og_images (openGraph m) = None <-> fetch_fails getThread getProject threadId)).
Proof.
  destruct (generateMetadata_cases getThread getProject env threadId)
    as [[Hf E] | (t & p & _ & _ & Hn & E)]; rewrite E.
  - split; [tauto|]. intros m [= <-]. cbn. tauto.
  - split.
    + split; [|tauto]. intros H. exfalso.
      apply (full_is_not_fallback env threadId p). congruence.
    + intros m [= <-]. cbn. split; (split; [discriminate | tauto]).
Qed.

Lemma fallback_iff_fetch_fails_witness :
  generateMetadata thread_found project_throws env_prod (str "abc") =
  Return (fallbackMetaData env_prod (str "abc")).
Proof.
  apply (fallback_iff_fetch_fails thread_found project_throws env_prod (str "abc")).
  exact I.
Defined.

(** X14. The metadata never has an empty title or description: a missing,
    null or empty project name or description is replaced by the default
    text; Open Graph and the Twitter card repeat the same title and
    description, the site name is always the one of the site configuration,
    and the Twitter image is the one Open Graph image. *)
Theorem metadata_never_blank getThread getProject (env : Env)
    (threadId : jsstring) :
  exists m,
    generateMetadata getThread getProject env threadId = Return m /\
    title m <> [] /\
    md_description m <> [] /\
    og_title (openGraph m) = title m /\
    og_description (openGraph m) = md_description m /\
    og_siteName (openGraph m) = str "OMNI Operator" /\
    (forall t, twitter m = Some t ->
       tw_title t = title m /\ tw_description t = md_description m /\
       og_images (openGraph m) = Some [tw_images t]).
Proof.
  destruct (generateMetadata_cases getThread getProject env threadId)
    as [[_ E] | (t & p & _ & _ & _ & E)]; rewrite E; eexists;
    (split; [reflexivity|]).
  - cbn. repeat split; try discriminate.
  - cbn. split; [apply or_literal_nonempty; discriminate|].
    split; [apply or_literal_nonempty; discriminate|].
    repeat split; injection H as <-; reflexivity.
Qed.

(** X15. With thread and project at hand, the title is the project name
    when that is a non-empty string and the default otherwise, while the
    preview image is the fixed fallback picture in development (NODE_ENV
    [development], or env mode [LOCAL] or [local]) and otherwise the
    og-image address ending in the project name as it stands: [undefined] or
    [null] for a project without one, nothing for an empty one. *)
Theorem preview_image_of_project getThread getProject (env : Env)
    (threadId : jsstring) (t : Thread) (p : Project) :
  getThread threadId = Yields (Some t) ->
  getProject (project_id t) = Yields (Some p) ->
  exists m,
    generateMetadata getThread getProject env threadId = Return m /\
    (truthy_val (name p) = true -> title m = to_string (name p)) /\
    (truthy_val (name p) = false ->
     title m = str "Shared Conversation | OMNI Operator") /\
    (isDevelopment env = true ->
     og_images (openGraph m) =
       Some [to_string (NEXT_PUBLIC_URL env) ++ str "/share-page/og-fallback.png"]) /\
    (isDevelopment env = false ->
     og_images (openGraph m) =
       Some [to_string (NEXT_PUBLIC_URL env)
               ++ str "/api/share-page/og-image?title=" ++ to_string (name p)]).
Proof.
  intros Ht Hp. unfold generateMetadata, try_body. rewrite Ht. cbn.
  rewrite Hp. cbn. eexists. split; [reflexivity|].
  unfold fullMetaData. fold (isDevelopment env). cbn.
  split; [|split; [|split]].
  - destruct (name p) as [| |s]; cbn; try discriminate. intros ->. reflexivity.
  - destruct (name p) as [| |s]; cbn; try reflexivity.
    intros ->. reflexivity.
  - intros ->. reflexivity.
  - intros ->. reflexivity.
Qed.

Lemma preview_image_of_project_witness :
  exists m,
    generateMetadata thread_found project_unnamed env_prod (str "abc") = Return m /\
    title m = str "Shared Conversation | OMNI Operator" /\
    og_images (openGraph m) =
      Some [str "https://suna.so/api/share-page/og-image?title=undefined"].
Proof.
  destruct (preview_image_of_project thread_found project_unnamed env_prod
              (str "abc") {| project_id := Str (str "p1") |}
              {| name := Undefined; description := Str [] |} eq_refl eq_refl)
    as (m & E & _ & Ht & _ & Hi).
  exists m. split; [exact E|]. split; [apply Ht; reflexivity|].
  apply Hi. reflexivity.
Defined.



End ShareLayoutMore.

(** ** Further properties of the custom model dialog *)

Module CustomModelDialogMore.
Import JS CustomModelDialog JSSpec JSMore.

#[local] Arguments str : simpl never.

Lemma save_disabled_iff (fd : CustomModelFormData) :
  save_disabled fd = true <-> forallb strippable (id fd) = true.
Proof.
  unfold save_disabled. rewrite negb_true_iff, not_truthy_empty.
  apply trim_nil_iff.
Qed.

(** X17. Typing into the Model ID input.  The value typed becomes the id as
    it stands and the label is kept; the Save button is then disabled
    exactly when the value is made of white space only, whatever the form
    held before; a click on the enabled button saves the value untrimmed; and
    a change coming from any other input only sets the label, never the id
    nor the state of the button. *)
Theorem typing_model_id (formData : CustomModelFormData) (value : jsstring)
    (other : jsstring) :
  handleChange (str "modelId") value formData
    = {| id := value; label := label formData |} /\
  (save_disabled (handleChange (str "modelId") value formData) = true <->
   forallb strippable value = true) /\
  (forallb strippable value = false ->
   click_save (handleChange (str "modelId") value formData) =
   [StopPropagation; OnSave {| id := value; label := label formData |}]) /\
  (other <> str "modelId" ->
   id (handleChange other value formData) = id formData /\
   label (handleChange other value formData) = value /\
   save_disabled (handleChange other value formData) = save_disabled formData).
Proof.
  assert (E : handleChange (str "modelId") value formData
              = {| id := value; label := label formData |}).
  { unfold handleChange. rewrite decide_True by reflexivity. reflexivity. }
  rewrite E. split; [reflexivity|]. split; [apply save_disabled_iff|]. split.
  - intros Hv. unfold click_save, handleSave.
    assert (Hd : save_disabled {| id := value; label := label formData |} = false).
    { apply not_true_iff_false. rewrite save_disabled_iff. cbn. congruence. }
    rewrite Hd. unfold save_disabled in Hd. apply negb_false_iff in Hd.
    rewrite Hd. reflexivity.
  - intros Ho. unfold handleChange. rewrite decide_False by exact Ho.
    repeat split.
Qed.

Lemma typing_model_id_witness :
  click_save (handleChange (str "modelId") (str " gpt-4o ")
                {| id := []; label := [] |}) =
  [StopPropagation; OnSave {| id := str " gpt-4o "; label := [] |}].
Proof.
  apply (typing_model_id {| id := []; label := [] |} (str " gpt-4o ") []).
  reflexivity.
Defined.

Lemma ui_step_saves fd ev fd' out m :
  ui_step fd ev = (fd', out) -> In (OnSave m) out ->
  ev = ClickSave /\ m = fd /\ trim (id m) <> [] /\ out = [StopPropagation; OnSave fd].
Proof.
  destruct ev; cbn; intros [= <- <-] H;
    try (destruct H as [H | H]; [discriminate H | destruct H as [H | []]; discriminate H]);
    try (destruct H as [H | []]; discriminate H); try (destruct H; fail).
  - unfold click_save, handleSave in *.
    destruct (save_disabled fd) eqn:Ed; [destruct H|].
    unfold save_disabled in Ed. apply negb_false_iff in Ed. rewrite Ed in *.
    destruct H as [H | [H | []]]; [discriminate H|]. injection H as <-.
    repeat split. apply truthy_nonempty, Ed.
  - destruct open; [destruct H | destruct H as [H | []]; discriminate H].
Qed.

Lemma count_save_step fd ev :
  (length (List.filter is_save (snd (ui_step fd ev))) <=
   if is_click_save ev then 1 else 0)%nat.
Proof.
  destruct ev; cbn; try lia.
  - unfold click_save, handleSave. destruct (save_disabled fd); cbn; [lia|].
    destruct (truthy _); cbn; lia.
  - destruct open; cbn; lia.
Qed.

(** X18. No sequence of events makes the dialog save a blank id.  Whatever
    is typed, clicked, dismissed or reset, in any order and from any initial
    data, every [onSave] carries an id that does not trim to the empty
    string, and there are never more saves than clicks on Save: Cancel,
    Escape, a press outside and a close request only ever close. *)
Theorem dialog_never_saves_blank (evs : list UiEvent)
    (initialData : CustomModelFormData) :
  (forall m, In (OnSave m) (snd (ui_run initialData evs)) -> trim (id m) <> []) /\
  (length (List.filter is_save (snd (ui_run initialData evs))) <=
   length (List.filter is_click_save evs))%nat.
Proof.
  revert initialData. induction evs as [|ev evs IH]; intros fd.
  - cbn. split; [intros m [] | lia].
  - cbn [ui_run]. destruct (ui_step fd ev) as [fd1 out1] eqn:Es.
    destruct (IH fd1) as [IH1 IH2].
    destruct (ui_run fd1 evs) as [fd2 out2]. cbn [snd] in *. split.
    + intros m Hm. apply in_app_iff in Hm as [Hm | Hm]; [|apply IH1, Hm].
      apply (ui_step_saves _ _ _ _ _ Es Hm).
    + rewrite List.filter_app, length_app.
      pose proof (count_save_step fd ev) as Hc. rewrite Es in Hc. cbn [snd] in Hc.
      cbn [List.filter]. destruct (is_click_save ev); cbn [length]; lia.
Qed.

Lemma dialog_never_saves_blank_witness :
  trim (id {| id := str "gpt"; label := [] |}) <> [].
Proof.
  apply (proj1 (dialog_never_saves_blank
                  [Typed (str "modelId") (str "  "); ClickSave;
                   Typed (str "modelId") (str "gpt"); ClickSave; ClickCancel]
                  {| id := []; label := [] |})).
  right. left. reflexivity.
Defined.

End CustomModelDialogMore.
